(** * Expense tracker (expenses.py): a shallow embedding and its properties

    The program keeps one SQLite table [expenses (id, date, category, amount)]
    behind a Tk window.  The embedding follows the callbacks of expenses.py:
    [add_expense], [delete_expense], [delete_all_expenses], [view_expenses],
    [generate_spending_chart], [generate_category_pie_chart],
    [export_to_csv], [generate_report] and [get_spending_insights].

    Modelling choices, fixed here once:
    - text is a [string] of bytes; only the ASCII classes of Python's
      regular expressions and of [float] are modelled, and what depends on
      them is stated of ASCII texts;
    - the amount of a row is the decimal that was typed, an exact rational
      [Q].  The callbacks compute with these decimals exactly.  The program
      computes with the binary64 numbers nearest to them; what depends on
      that rounding (the comparisons of the recommendations, two sums of
      the same amounts taken in different groupings) is stated over an
      [arithmetic], for every arithmetic, with the exact one and binary64 as
      instances.  The spellings inf and nan of [float] are not modelled;
    - the table is the list of its rows in rowid order together with the
      row of [sqlite_sequence] that AUTOINCREMENT maintains;
    - a scan of the table without ORDER BY hands out the rows in an order
      the engine picks: every scan goes through an [engine], a
      rearrangement of rows, and the properties below hold for every
      engine.  The groups of a GROUP BY come in the order of their keys. *)

From Stdlib Require Import ZArith QArith Qcanon List String Ascii Bool Lia.
From Stdlib Require Import Permutation Sorted Floats.SpecFloat.
Import ListNotations.

Local Open Scope string_scope.
Local Open Scope list_scope.
Local Open Scope Z_scope.

(** ** Bytes and text *)

Module Text.

Definition code (c : ascii) : N := N_of_ascii c.

(** A character class [lo-hi] of a regular expression, by byte value. *)
Definition in_range (lo hi : N) (c : ascii) : bool :=
  (lo <=? code c)%N && (code c <=? hi)%N.

Definition is_digit (c : ascii) : bool := in_range 48 57 c.

Definition digit_val (c : ascii) : Z := Z.of_N (code c) - 48.

Definition is_char (k : N) (c : ascii) : bool := (code c =? k)%N.

Definition dash : N := 45.
Definition blank : N := 32.

(** The white space [float] skips around an ASCII text: tab, line feed,
    vertical tab, form feed, carriage return and the blank. *)
Definition is_space (c : ascii) : bool :=
  in_range 9 13 c || is_char blank c.

Definition chars (s : string) : list ascii := list_ascii_of_string s.

(** A text of ASCII characters only.  Such a text [strptime], [float] and
    [str.contains] read byte by byte as below; beyond ASCII Python's [\d]
    and its folding of case know more characters than are modelled. *)
Definition is_ascii (s : string) : bool :=
  forallb (fun c => (code c <? 128)%N) (chars s).

Definition to_lower (c : ascii) : ascii :=
  if in_range 65 90 c then ascii_of_N (code c + 32) else c.

Fixpoint starts_with (p s : list ascii) : bool :=
  match p, s with
  | [], _ => true
  | _ :: _, [] => false
  | a :: p', b :: s' => Ascii.eqb a b && starts_with p' s'
  end.

Fixpoint find_sub (p s : list ascii) : bool :=
  starts_with p s ||
  match s with
  | [] => false
  | _ :: s' => find_sub p s'
  end.

(** [Series.str.contains(pat, case=False)] for a pattern without regular
    expression operators: a case-insensitive substring search. *)
Definition contains_nocase (pat s : string) : bool :=
  find_sub (map to_lower (chars pat)) (map to_lower (chars s)).

(** Decimal rendering with a fixed number of digits (printf's %0nd). *)
Definition digit_char (d : Z) : ascii := ascii_of_N (48 + Z.to_N d).

Fixpoint zero_padded (width : nat) (n : Z) : list ascii :=
  match width with
  | O => []
  | S w => zero_padded w (n / 10) ++ [digit_char (n mod 10)]
  end.

End Text.

(** ** datetime.strptime(text, "%Y-%m-%d")

    _strptime compiles the format into the regular expression
    [(?P<Y>\d\d\d\d)-(?P<m>1[0-2]|0[1-9]|[1-9])-(?P<d>3[0-1]|[1-2]\d|0[1-9]|[1-9]| [1-9])],
    matches it at the start of the text, raises ValueError when text remains
    after the match, and then builds the date, which raises ValueError for a
    day the month does not have or a year below 1.  Each piece below lists
    its matches in the order the backtracking matcher tries them. *)

Module Strptime.
Import Text.

Definition matches (A : Type) : Type := list (A * list ascii).

Definition re_Y (s : list ascii) : matches Z :=
  match s with
  | a :: b :: c :: d :: r =>
      if is_digit a && is_digit b && is_digit c && is_digit d
      then [(1000 * digit_val a + 100 * digit_val b
             + 10 * digit_val c + digit_val d, r)]
      else []
  | _ => []
  end.

Definition re_lit (k : N) (s : list ascii) : matches unit :=
  match s with
  | a :: r => if is_char k a then [(tt, r)] else []
  | [] => []
  end.

(** Two characters, the first equal to [k] or in a class, the second in a class. *)
Definition two (first second : ascii -> bool) (s : list ascii) : matches Z :=
  match s with
  | a :: b :: r =>
      if first a && second b
      then [(if is_digit a then 10 * digit_val a + digit_val b else digit_val b, r)]
      else []
  | _ => []
  end.

Definition one (cls : ascii -> bool) (s : list ascii) : matches Z :=
  match s with
  | a :: r => if cls a then [(digit_val a, r)] else []
  | [] => []
  end.

(** [1[0-2]|0[1-9]|[1-9]] *)
Definition re_m (s : list ascii) : matches Z :=
  two (is_char 49) (in_range 48 50) s
  ++ two (is_char 48) (in_range 49 57) s
  ++ one (in_range 49 57) s.

(** [3[0-1]|[1-2]\d|0[1-9]|[1-9]| [1-9]] *)
Definition re_d (s : list ascii) : matches Z :=
  two (is_char 51) (in_range 48 49) s
  ++ two (in_range 49 50) is_digit s
  ++ two (is_char 48) (in_range 49 57) s
  ++ one (in_range 49 57) s
  ++ two (is_char blank) (in_range 49 57) s.

Definition and_then {A B : Type} (p : matches A)
    (q : A -> list ascii -> matches B) : matches B :=
  flat_map (fun ar => q (fst ar) (snd ar)) p.

(** All the ways the whole expression matches, first choice first. *)
Definition format_regex (s : list ascii) : matches (Z * Z * Z) :=
  and_then (re_Y s) (fun y s1 =>
  and_then (re_lit dash s1) (fun _ s2 =>
  and_then (re_m s2) (fun m s3 =>
  and_then (re_lit dash s3) (fun _ s4 =>
  and_then (re_d s4) (fun d s5 => [((y, m, d), s5)]))))).

Definition is_leap (y : Z) : bool :=
  (y mod 4 =? 0) && (negb (y mod 100 =? 0) || (y mod 400 =? 0)).

Definition days_in_month (y m : Z) : Z :=
  if m =? 2 then (if is_leap y then 29 else 28)
  else if (m =? 4) || (m =? 6) || (m =? 9) || (m =? 11) then 30
  else 31.

(** What [datetime.date(y, m, d)] accepts. *)
Definition is_calendar_date (y m d : Z) : bool :=
  (1 <=? y) && (y <=? 9999) && (1 <=? m) && (m <=? 12)
  && (1 <=? d) && (d <=? days_in_month y m).

Inductive parsed : Type :=
| Date (y m d : Z)
| ValueError.

Definition strptime (text : string) : parsed :=
  match format_regex (chars text) with
  | [] => ValueError
  | ((y, m, d), rest) :: _ =>
      match rest with
      | _ :: _ => ValueError
      | [] => if is_calendar_date y m d then Date y m d else ValueError
      end
  end.

End Strptime.

(** The form the specification asks of a date: ten characters,
    [dddd-dd-dd], naming a day of the calendar. *)
Definition is_iso_date (text : string) : bool :=
  match Text.chars text with
  | [y1; y2; y3; y4; h1; m1; m2; h2; d1; d2] =>
      Text.is_digit y1 && Text.is_digit y2 && Text.is_digit y3 && Text.is_digit y4
      && Text.is_char Text.dash h1
      && Text.is_digit m1 && Text.is_digit m2
      && Text.is_char Text.dash h2
      && Text.is_digit d1 && Text.is_digit d2
      && Strptime.is_calendar_date
           (1000 * Text.digit_val y1 + 100 * Text.digit_val y2
            + 10 * Text.digit_val y3 + Text.digit_val y4)
           (10 * Text.digit_val m1 + Text.digit_val m2)
           (10 * Text.digit_val d1 + Text.digit_val d2)
  | _ => false
  end.

Definition validate_date (date_text : string) : bool :=
  match Strptime.strptime date_text with
  | Strptime.Date _ _ _ => true
  | Strptime.ValueError => false
  end.

(** ** float(text)

    The grammar of the language reference, after white space is stripped:
    [[sign] ([digitpart] "." digitpart | digitpart ["."]) [("e"|"E") [sign] digitpart]]
    with [digitpart ::= digit (["_"] digit)*].  The value is kept exact. *)

Module PyFloat.
Import Text.

Fixpoint lstrip (s : list ascii) : list ascii :=
  match s with
  | c :: r => if is_space c then lstrip r else s
  | [] => []
  end.

Definition strip (s : list ascii) : list ascii :=
  rev (lstrip (rev (lstrip s))).

(** Reads a digitpart into [acc]; [count] is the number of digits read. *)
Fixpoint digitpart (acc : Z) (count : nat) (s : list ascii)
    : Z * nat * list ascii :=
  match s with
  | c :: r =>
      if is_digit c then digitpart (10 * acc + digit_val c) (S count) r
      else if is_char 95 c && negb (Nat.eqb count 0) then
        match r with
        | d :: r' =>
            if is_digit d
            then digitpart (10 * acc + digit_val d) (S count) r'
            else (acc, count, s)
        | [] => (acc, count, s)
        end
      else (acc, count, s)
  | [] => (acc, count, s)
  end.

Definition sign (s : list ascii) : bool * list ascii :=
  match s with
  | c :: r =>
      if is_char 43 c then (false, r)
      else if is_char 45 c then (true, r)
      else (false, s)
  | [] => (false, s)
  end.

(** Mantissa, decimal exponent and what is left of the text. *)
Definition number (s : list ascii) : option (Z * Z * list ascii) :=
  let '(whole, n, r) := digitpart 0 0 s in
  match r with
  | c :: r1 =>
      if is_char 46 c then
        let '(m, k, r2) := digitpart whole 0 r1 in
        if Nat.eqb n 0 && Nat.eqb k 0 then None
        else Some (m, - Z.of_nat k, r2)
      else if Nat.eqb n 0 then None else Some (whole, 0, r)
  | [] => if Nat.eqb n 0 then None else Some (whole, 0, r)
  end.

Definition exponent (s : list ascii) : option (Z * list ascii) :=
  match s with
  | c :: r =>
      if is_char 101 c || is_char 69 c then
        let '(neg, r1) := sign r in
        let '(e, n, r2) := digitpart 0 0 r1 in
        if Nat.eqb n 0 then None else Some (if neg then - e else e, r2)
      else Some (0, s)
  | [] => Some (0, s)
  end.

Definition pow10 (e : Z) : Q :=
  if 0 <=? e then inject_Z (10 ^ e) else Qmake 1 (Z.to_pos (10 ^ (- e))).

(** Half of the least positive binary64, 2^-1075: a positive value rounds
    to 0.0, under round to nearest even, exactly when it is at most this. *)
Definition half_least_positive : Q := Qmake 1 (Pos.shiftl 1 1075).

(** [None] stands for ValueError. *)
Definition float (text : string) : option Q :=
  let '(neg, s1) := sign (strip (chars text)) in
  match number s1 with
  | None => None
  | Some (m, k, r) =>
      match exponent r with
      | Some (e, []) =>
          Some (Qred (inject_Z (if neg then - m else m) * pow10 (k + e)))
      | _ => None
      end
  end.

End PyFloat.

(** [float(amount_text) > 0]: the float is positive when the value read
    does not round to zero. *)
Definition validate_amount (amount_text : string) : bool :=
  match PyFloat.float amount_text with
  | Some x => negb (Qle_bool x PyFloat.half_least_positive)
  | None => false
  end.

(** ** The SQLite engine, as far as the program's statements use it *)

Module Sqlite.
Import Text.

(** The BINARY collation: memcmp over the common length, the shorter text
    first when one is a prefix of the other. *)
Fixpoint memcmp (a b : string) : comparison :=
  match a, b with
  | EmptyString, EmptyString => Eq
  | EmptyString, String _ _ => Lt
  | String _ _, EmptyString => Gt
  | String x a', String y b' =>
      match (code x ?= code y)%N with
      | Eq => memcmp a' b'
      | Lt => Lt
      | Gt => Gt
      end
  end.

Definition text_le (a b : string) : bool :=
  match memcmp a b with Gt => false | _ => true end.

(** [x BETWEEN lo AND hi] is [x >= lo AND x <= hi]. *)
Definition between (x lo hi : string) : bool :=
  text_le lo x && text_le x hi.

(** A result column that may be NULL; NULL sorts before every text. *)
Definition nullable_cmp (a b : option string) : comparison :=
  match a, b with
  | None, None => Eq
  | None, Some _ => Lt
  | Some _, None => Gt
  | Some x, Some y => memcmp x y
  end.

(** Two digits that spell a number between [lo] and [hi] (getDigits). *)
Definition ranged (a b : ascii) (lo hi : Z) : option Z :=
  let v := 10 * digit_val a + digit_val b in
  if is_digit a && is_digit b && (lo <=? v) && (v <=? hi)
  then Some v else None.

(** The date of a time string, [YYYY-MM-DD] with a month in 1..12 and a day
    in 1..31.  The other time strings SQLite reads (a time of day, a julian
    day number, a signed year, a time after the date) are not modelled:
    none of them passes [validate_date]. *)
Definition parseYyyyMmDd (s : list ascii) : option (Z * Z * Z) :=
  match s with
  | [y1; y2; y3; y4; h1; m1; m2; h2; d1; d2] =>
      if is_digit y1 && is_digit y2 && is_digit y3 && is_digit y4
         && is_char dash h1 && is_char dash h2
      then
        match ranged m1 m2 1 12, ranged d1 d2 1 31 with
        | Some m, Some d =>
            Some (1000 * digit_val y1 + 100 * digit_val y2
                  + 10 * digit_val y3 + digit_val y4, m, d)
        | _, _ => None
        end
      else None
  | _ => None
  end.

(** [strftime('%Y-%m', date)]: NULL for a text that is no date; the year
    and the month are printed as the text has them, whatever the day. *)
Definition strftime_Ym (date : string) : option string :=
  match parseYyyyMmDd (chars date) with
  | None => None
  | Some (y, m, _) =>
      Some (string_of_list_ascii
              (zero_padded 4 y ++ [ascii_of_N dash] ++ zero_padded 2 m))
  end.

(** GROUP BY key with SUM: one accumulator per key, kept in key order, as
    the sorter of GROUP BY hands the groups out in the order of their keys;
    the rows of a group are added in the order scanned. *)
Section GroupBy.
Context {K : Type} (cmp : K -> K -> comparison).

Fixpoint accumulate (k : K) (a : Q) (groups : list (K * Q))
    : list (K * Q) :=
  match groups with
  | [] => [(k, a)]
  | (k', t) :: rest =>
      match cmp k k' with
      | Lt => (k, a) :: groups
      | Eq => (k', (t + a)%Q) :: rest
      | Gt => (k', t) :: accumulate k a rest
      end
  end.

Definition group_sum (rows : list (K * Q)) : list (K * Q) :=
  fold_left (fun groups r => accumulate (fst r) (snd r) groups) rows [].

(** The keys the grouping takes for equal to [k]. *)
Definition same_key (k : K) (x : K) : bool :=
  match cmp x k with Eq => true | _ => false end.
End GroupBy.

(** GROUP BY key with any aggregate: one row per distinct key, the keys in
    their order, each with the aggregate of the values of its rows, taken
    in the order scanned. *)
Section GroupRows.
Context {K V T : Type} (cmp : K -> K -> comparison) (aggregate : list V -> T).

Fixpoint insert_key (k : K) (keys : list K) : list K :=
  match keys with
  | [] => [k]
  | k' :: rest =>
      match cmp k k' with
      | Lt => k :: keys
      | Eq => keys
      | Gt => k' :: insert_key k rest
      end
  end.

Definition distinct_keys (rows : list (K * V)) : list K :=
  fold_left (fun keys r => insert_key (fst r) keys) rows [].

Definition group (rows : list (K * V)) (k : K) : list V :=
  map snd (filter (fun r => same_key cmp k (fst r)) rows).

Definition group_by (rows : list (K * V)) : list (K * T) :=
  map (fun k => (k, aggregate (group rows k))) (distinct_keys rows).
End GroupRows.

(** The order in which a scan of the table without ORDER BY hands out the
    rows is the engine's choice: some rearrangement of them. *)
Record engine : Type := {
  emit : forall A : Type, list A -> list A;
  emit_perm : forall (A : Type) (l : list A), Permutation (emit A l) l
}.

Arguments emit _ {A} _.

(** A table scan in rowid order, as SQLite's b-tree scan produces it. *)
Definition in_order : engine :=
  {| emit := fun _ l => l;
     emit_perm := fun _ l => Permutation_refl l |}.

(** An engine that hands the same rows out last first. *)
Definition reversed : engine :=
  {| emit := fun _ l => rev l;
     emit_perm := fun _ l => Permutation_sym (Permutation_rev l) |}.

End Sqlite.

(** ** The table, the window and the callbacks *)

Record Expense : Type := {
  id : Z;
  date : string;
  category : string;
  amount : Q
}.

(** The rows of [expenses] in rowid order, and the [seq] that the row
    [name = 'expenses'] of [sqlite_sequence] holds when that row exists. *)
Record database : Type := {
  expenses : list Expense;
  sqlite_sequence : option Z
}.

(** The two texts [total_label] takes, with the number they format. *)
Inductive total_text : Type :=
| TotalExpense (total : Q)
| TotalFromTo (start_date end_date : string) (total : Q).

Record window : Type := {
  status_label : string;
  expenses_tree : list Expense;
  total_label : total_text
}.

Record state : Type := {
  db : database;
  win : window
}.

Definition with_status (st : state) (text : string) : state :=
  {| db := db st;
     win := {| status_label := text;
               expenses_tree := expenses_tree (win st);
               total_label := total_label (win st) |} |}.

Definition with_db (st : state) (d : database) : state :=
  {| db := d; win := win st |}.

(** Python's [sum] and pandas' [Series.sum]: the numbers added up from 0. *)
Definition Qsum (l : list Q) : Q := fold_left Qplus l 0%Q.

(** [sum(row[3] for row in rows)], and the loop [total += row[3]]. *)
Definition total (rows : list Expense) : Q := Qsum (map amount rows).

Section Callbacks.
Variable E : Sqlite.engine.

(** [SELECT * FROM expenses] *)
Definition select_all (d : database) : list Expense :=
  Sqlite.emit E (expenses d).

Definition view_expenses (st : state) : state :=
  let rows := select_all (db st) in
  {| db := db st;
     win := {| status_label := status_label (win st);
               expenses_tree := rows;
               total_label := TotalExpense (total rows) |} |}.

(** INSERT into a table with an AUTOINCREMENT key: the new rowid is one
    more than the largest rowid the table holds or has held, which is
    what [sqlite_sequence] remembers. *)
Definition max_rowid (rows : list Expense) : Z :=
  fold_right (fun e m => Z.max (id e) m) 0 rows.

Definition next_rowid (d : database) : Z :=
  Z.max (max_rowid (expenses d))
        (match sqlite_sequence d with Some s => s | None => 0 end) + 1.

Definition insert (d : database) (date category : string) (amount : Q)
    : database :=
  let e := {| id := next_rowid d; date := date;
              category := category; amount := amount |} in
  {| expenses := expenses d ++ [e]; sqlite_sequence := Some (id e) |}.

Definition invalid_date : string := "Invalid date! Use YYYY-MM-DD format.".
Definition empty_category : string := "Category cannot be empty.".
Definition invalid_amount : string :=
  "Invalid amount! Enter a positive number.".
Definition added : string := "Expense added successfully!".

Definition add_expense (st : state) (date category amount : string) : state :=
  if negb (validate_date date) then with_status st invalid_date
  else if String.eqb category "" then with_status st empty_category
  else if negb (validate_amount amount) then with_status st invalid_amount
  else
    match PyFloat.float amount with
    | Some x =>
        view_expenses
          (with_status (with_db st (insert (db st) date category x)) added)
    | None => st
    end.

(** [DELETE FROM expenses WHERE id = ?] *)
Definition delete_where_id (d : database) (item_id : Z) : database :=
  {| expenses := filter (fun e => negb (id e =? item_id)) (expenses d);
     sqlite_sequence := sqlite_sequence d |}.

(** [DELETE FROM sqlite_sequence WHERE name = 'expenses'] *)
Definition reset_sequence (d : database) : database :=
  {| expenses := expenses d; sqlite_sequence := None |}.

Definition deleted : string := "Selected expenses deleted successfully!".
Definition nothing_selected : string :=
  "Please select an expense to delete!".

(** [selected_items] holds the ids read from the selected lines. *)
Definition delete_expense (st : state) (selected_items : list Z) : state :=
  match selected_items with
  | _ :: _ =>
      let d := fold_left delete_where_id selected_items (db st) in
      let st1 := view_expenses (with_status (with_db st d) deleted) in
      if Nat.eqb (List.length (expenses d)) 0
      then with_db st1 (reset_sequence d)
      else st1
  | [] => with_status st nothing_selected
  end.

Definition all_deleted : string := "All expenses deleted successfully!".

Definition delete_all_expenses (st : state) : state :=
  let d := {| expenses := []; sqlite_sequence := None |} in
  view_expenses (with_status (with_db st d) all_deleted).

(** [SELECT strftime('%Y-%m', date) as month, SUM(amount) FROM expenses
    GROUP BY month] *)
Definition monthly_rows (d : database) : list (option string * Q) :=
  Sqlite.group_sum Sqlite.nullable_cmp
    (map (fun e => (Sqlite.strftime_Ym (date e), amount e))
         (Sqlite.emit E (expenses d))).

(** The [months] and [totals] handed to [plt.bar]. *)
Definition generate_spending_chart (d : database)
    : list (option string) * list Q :=
  let rows := monthly_rows d in (map fst rows, map snd rows).

(** [SELECT category, SUM(amount) FROM expenses GROUP BY category] *)
Definition category_rows (d : database) : list (string * Q) :=
  Sqlite.group_sum Sqlite.memcmp
    (map (fun e => (category e, amount e))
         (Sqlite.emit E (expenses d))).

(** The [categories] and [amounts] handed to [plt.pie]. *)
Definition generate_category_pie_chart (d : database)
    : list string * list Q :=
  let rows := category_rows d in (map fst rows, map snd rows).

Definition report_generated : string :=
  "Report generated for selected date range.".

(** [SELECT * FROM expenses WHERE date BETWEEN ? AND ?] *)
Definition generate_report (st : state) (start_date end_date : string) : state :=
  let rows :=
    Sqlite.emit E
      (filter (fun e => Sqlite.between (date e) start_date end_date)
              (expenses (db st))) in
  {| db := db st;
     win := {| status_label := report_generated;
               expenses_tree := rows;
               total_label := TotalFromTo start_date end_date (total rows) |} |}.

Definition dining_advice : string :=
  "Consider reducing spending on dining out to save more.".
Definition entertainment_advice : string :=
  "Think about cutting down on entertainment expenses.".
Definition doing_great : string :=
  "You're doing great! Keep up the good work.".

(** [df["Amount"].sum()] *)
Definition amount_sum (df : list (string * Q)) : Q := Qsum (map snd df).

(** [df[df["Category"].str.contains(pat, case=False, na=False)]] *)
Definition containing (pat : string) (df : list (string * Q))
    : list (string * Q) :=
  filter (fun r => Text.contains_nocase pat (fst r)) df.

Definition gt (a b : Q) : bool := negb (Qle_bool a b).

Definition get_spending_insights (d : database) : list string :=
  let df := category_rows d in
  let total_spent := amount_sum df in
  let dining_spent := amount_sum (containing "Dining Out" df) in
  let recommendations :=
    if gt dining_spent (total_spent * (2 # 10)) then [dining_advice]
    else [] in
  let entertainment_spent := amount_sum (containing "Entertainment" df) in
  let recommendations :=
    if gt entertainment_spent (total_spent * (15 # 100))
    then recommendations ++ [entertainment_advice]
    else recommendations in
  match recommendations with
  | [] => [doing_great]
  | _ :: _ => recommendations
  end.

Definition newline : string := String (ascii_of_N 10) EmptyString.

Definition display_recommendations (st : state) : state :=
  with_status st
    (String.append "Recommendations:"
       (String.append newline
          (String.concat newline (get_spending_insights (db st))))).

End Callbacks.

(** ** The arithmetic of the amounts

    The program computes with binary64 numbers.  [float(amount_text)]
    stores the binary64 nearest to the decimal typed; Python's [sum],
    SQLite's SUM and pandas' [Series.sum] add such numbers, each in an
    order and with a rounding of its own; [get_spending_insights]
    multiplies a sum by the literals 0.2 and 0.15 and compares.  The
    callbacks above read all of this as exact arithmetic on the decimals.
    What holds of the program whatever the rounding is stated over an
    [arithmetic]: the numbers and the operations the program uses, with
    nothing assumed of them but that Python's sum of nothing is 0. *)
Record arithmetic : Type := {
  number : Type;
  (** the number [float(text)] gives for a decimal, and a literal of the
      program text for the decimal written *)
  of_decimal : Q -> number;
  (** [sum(...)] of Python *)
  py_sum : list number -> number;
  py_sum_nil : py_sum [] = of_decimal 0%Q;
  (** [SUM(amount)] of SQLite over the rows of one group *)
  sql_sum : list number -> number;
  (** [Series.sum()] of pandas *)
  pd_sum : list number -> number;
  (** [*] and [>] on two numbers *)
  times : number -> number -> number;
  greater : number -> number -> bool
}.

(** The queries and the recommendations over an arithmetic. *)
Module Over.
Section Arithmetic.
Variable A : arithmetic.
Variable E : Sqlite.engine.

(** The REAL that the column [amount] of a row holds. *)
Definition stored (e : Expense) : number A := of_decimal A (amount e).


(** [SELECT strftime('%Y-%m', date) as month, SUM(amount) FROM expenses
    GROUP BY month] *)
Definition monthly_rows (d : database) : list (option string * number A) :=
  Sqlite.group_by Sqlite.nullable_cmp (sql_sum A)
    (map (fun e => (Sqlite.strftime_Ym (date e), stored e))
         (Sqlite.emit E (expenses d))).

Definition generate_spending_chart (d : database)
    : list (option string) * list (number A) :=
  let rows := monthly_rows d in (map fst rows, map snd rows).

(** [SELECT category, SUM(amount) FROM expenses GROUP BY category] *)
Definition category_rows (d : database) : list (string * number A) :=
  Sqlite.group_by Sqlite.memcmp (sql_sum A)
    (map (fun e => (category e, stored e))
         (Sqlite.emit E (expenses d))).

Definition generate_category_pie_chart (d : database)
    : list string * list (number A) :=
  let rows := category_rows d in (map fst rows, map snd rows).

(** [df["Amount"].sum()] *)
Definition amount_sum (df : list (string * number A)) : number A :=
  pd_sum A (map snd df).

(** [df[df["Category"].str.contains(pat, case=False, na=False)]] *)
Definition containing (pat : string) (df : list (string * number A))
    : list (string * number A) :=
  filter (fun r => Text.contains_nocase pat (fst r)) df.

Definition get_spending_insights (d : database) : list string :=
  let df := category_rows d in
  let total_spent := amount_sum df in
  let dining_spent := amount_sum (containing "Dining Out" df) in
  let recommendations :=
    if greater A dining_spent (times A total_spent (of_decimal A (2 # 10)))
    then [dining_advice]
    else [] in
  let entertainment_spent := amount_sum (containing "Entertainment" df) in
  let recommendations :=
    if greater A entertainment_spent
         (times A total_spent (of_decimal A (15 # 100)))
    then recommendations ++ [entertainment_advice]
    else recommendations in
  match recommendations with
  | [] => [doing_great]
  | _ :: _ => recommendations
  end.

End Arithmetic.
End Over.

(** Exact arithmetic: the rationals in lowest terms. *)
Definition rationals : arithmetic :=
  let sum := fun l : list Qc => fold_left Qcplus l (Q2Qc 0) in
  {| number := Qc;
     of_decimal := Q2Qc;
     py_sum := sum;
     py_sum_nil := eq_refl;
     sql_sum := sum;
     pd_sum := sum;
     times := Qcmult;
     greater := fun a b =>
       match Qccompare a b with Gt => true | _ => false end |}.

(** Binary64 arithmetic, rounding to nearest, ties to even: 53 bits of
    precision, exponents below 1024. *)
Module Binary64.

Definition prec : Z := 53.
Definition emax : Z := 1024.

(** The binary64 nearest to a rational: the correctly rounded quotient of
    its numerator and denominator; a value too large rounds to infinity, one
    too small to zero. *)
Definition nearest (q : Q) : spec_float :=
  match Qnum q with
  | Z0 => S754_zero false
  | Zpos n =>
      SFdiv prec emax (S754_finite false n 0) (S754_finite false (Qden q) 0)
  | Zneg n =>
      SFdiv prec emax (S754_finite true n 0) (S754_finite false (Qden q) 0)
  end.

Definition add : spec_float -> spec_float -> spec_float := SFadd prec emax.
Definition mul : spec_float -> spec_float -> spec_float := SFmul prec emax.
Definition gt (a b : spec_float) : bool := SFltb b a.

(** The numbers added one after the other from 0.0. *)
Definition sum (l : list spec_float) : spec_float :=
  fold_left add l (S754_zero false).

End Binary64.

(** The arithmetic of the program where every sum adds its numbers one
    after the other from 0.0, as [sum] of Python 3.11 and SUM of SQLite
    3.40 do, and [Series.sum] on the one or two rows of the examples
    below.  (Later versions of Python and of SQLite compensate the rounding
    of a sum; an [arithmetic] leaves each sum free.) *)
Definition binary64 : arithmetic :=
  {| number := spec_float;
     of_decimal := Binary64.nearest;
     py_sum := Binary64.sum;
     py_sum_nil := eq_refl;
     sql_sum := Binary64.sum;
     pd_sum := Binary64.sum;
     times := Binary64.mul;
     greater := Binary64.gt |}.

(** ** Export to a CSV file *)

Inductive cell : Type :=
| Int (z : Z)
| Str (s : string)
| Real (x : Q).

Definition csv_row : Type := list cell.

Definition header : csv_row := [Str "ID"; Str "Date"; Str "Category"; Str "Amount"].

Definition row_of (e : Expense) : csv_row :=
  [Int (id e); Str (date e); Str (category e); Real (amount e)].

(** The file behind [file_path], as the export meets it: whether
    [open(file_path, mode="w")] succeeds, how many rows the medium takes
    before a write raises, the text of the error it raises, and the rows
    the file holds.  Rows are the unit of the model: the text of a row
    (quoting, the digits of a number) and a file cut inside a row are not
    modelled. *)
Record destination : Type := {
  opens : bool;
  room : nat;
  oserror : string;
  holds : list csv_row
}.

Definition exported : string := "Data exported successfully!".
Definition export_failed (e : string) : string :=
  String.append "Error exporting data: " e.

(** Opening for writing empties the file; the rows then go out in order
    until the medium refuses one. *)
Definition export_to_csv (E : Sqlite.engine) (st : state) (file_path : string)
    (f : destination) : state * destination :=
  if String.eqb file_path "" then (st, f)
  else
    let rows := select_all E (db st) in
    if opens f then
      let lines := header :: map row_of rows in
      let f' := {| opens := opens f; room := room f; oserror := oserror f;
                   holds := firstn (room f) lines |} in
      if Nat.leb (List.length lines) (room f)
      then (with_status st exported, f')
      else (with_status st (export_failed (oserror f)), f')
    else (with_status st (export_failed (oserror f)), f).

(** ** The states the program reaches *)

Definition blank_window : window :=
  {| status_label := ""; expenses_tree := [];
     total_label := TotalExpense 0 |}.

(** Start of the program on the database file [d]: the table is created
    if it is missing, the window is built and [view_expenses] fills it. *)
Definition launch (E : Sqlite.engine) (d : database) : state :=
  view_expenses E {| db := d; win := blank_window |}.

Definition new_database : database :=
  {| expenses := []; sqlite_sequence := None |}.

Inductive reachable (E : Sqlite.engine) : state -> Prop :=
| reach_new : reachable E (launch E new_database)
| reach_again st : reachable E st -> reachable E (launch E (db st))
| reach_add st date category amount :
    reachable E st -> reachable E (add_expense E st date category amount)
| reach_delete st selected_items :
    reachable E st -> reachable E (delete_expense E st selected_items)
| reach_delete_all st :
    reachable E st -> reachable E (delete_all_expenses E st)
| reach_view st : reachable E st -> reachable E (view_expenses E st)
| reach_report st start_date end_date :
    reachable E st -> reachable E (generate_report E st start_date end_date)
| reach_export st file_path f :
    reachable E st -> reachable E (fst (export_to_csv E st file_path f))
| reach_recommend st :
    reachable E st -> reachable E (display_recommendations E st).

(** ** What the stores the program reaches have in common *)

(** An expense as [add_expense] lets it in. *)
Definition entry_ok (e : Expense) : Prop :=
  validate_date (date e) = true /\ category e <> "" /\ (0 < amount e)%Q.

(** Rows in increasing rowid order, none above the remembered [seq]. *)
Definition ids_ok (d : database) : Prop :=
  StronglySorted Z.lt (map id (expenses d))
  /\ Forall (fun e => 0 < id e
              /\ exists s, sqlite_sequence d = Some s /\ id e <= s)
            (expenses d).

Definition store_ok (d : database) : Prop :=
  Forall entry_ok (expenses d)
  /\ ids_ok d
  /\ (expenses d = [] -> sqlite_sequence d = None).

(** The lines of the list that a selection names. *)
Definition is_selected (selected_items : list Z) (e : Expense) : bool :=
  existsb (Z.eqb (id e)) selected_items.


(** The store in which every date has the form YYYY-MM-DD. *)
Definition iso_dated (d : database) : Prop :=
  Forall (fun e => is_iso_date (date e) = true) (expenses d).

(** What the stored expenses whose category contains [pat], in any case
    of the letters, add up to; and the two rules of the recommendations as
    conditions on the store. *)
Definition spent_on (pat : string) (d : database) : Q :=
  total (filter (fun e => Text.contains_nocase pat (category e)) (expenses d)).

Definition dining_rule (d : database) : Prop :=
  (total (expenses d) * (2 # 10) < spent_on "Dining Out" d)%Q.

Definition entertainment_rule (d : database) : Prop :=
  (total (expenses d) * (15 # 100) < spent_on "Entertainment" d)%Q.

(** The lexicographic order of texts, byte by byte, a proper prefix
    coming first. *)
Inductive lex_le : string -> string -> Prop :=
| lex_empty s : lex_le "" s
| lex_less a b s t :
    (Text.code a < Text.code b)%N -> lex_le (String a s) (String b t)
| lex_same a s t : lex_le s t -> lex_le (String a s) (String a t).

(** The store whose category names are ASCII texts. *)
Definition ascii_categories (d : database) : Prop :=
  Forall (fun e => Text.is_ascii (category e) = true) (expenses d).


Definition of_category (c : string) (e : Expense) : bool :=
  String.eqb (category e) c.

(** What SUM gives for the rows of a scan that satisfy [p]. *)
Definition sum_where (A : arithmetic) (p : Expense -> bool)
    (rows : list Expense) : number A :=
  sql_sum A (map (Over.stored A) (filter p rows)).

(** An arithmetic that adds exactly: its sums add the numbers up with one
    addition that is commutative and associative and has 0 for unit. *)
Definition adds_exactly (A : arithmetic) : Prop :=
  exists plus : number A -> number A -> number A,
    (forall a b, plus a b = plus b a)
    /\ (forall a b c, plus a (plus b c) = plus (plus a b) c)
    /\ (forall a, plus (of_decimal A 0%Q) a = a)
    /\ (forall l, py_sum A l = fold_left plus l (of_decimal A 0%Q))
    /\ (forall l, sql_sum A l = fold_left plus l (of_decimal A 0%Q)).

(** ** The example of the specification

    The three expenses (2024-01-05, Food, 50), (2024-01-20, Dining Out, 40)
    and (2024-02-01, Food, 10), typed into a fresh program. *)

Definition first_start : state := launch Sqlite.in_order new_database.

Definition three_expenses : state :=
  add_expense Sqlite.in_order
    (add_expense Sqlite.in_order
       (add_expense Sqlite.in_order first_start "2024-01-05" "Food" "50")
       "2024-01-20" "Dining Out" "40")
    "2024-02-01" "Food" "10".

(** Two categories that both contain the words Dining Out, 15 each, beside
    70 of rent. *)
Definition two_dining_categories : state :=
  add_expense Sqlite.in_order
    (add_expense Sqlite.in_order
       (add_expense Sqlite.in_order first_start "2024-03-01" "Dining Out" "15")
       "2024-03-02" "Dining Out Lunch" "15")
    "2024-03-03" "Rent" "70".


(** Entertainment in three amounts of tenths, beside 3.4 of rent. *)
Definition tenths_of_entertainment : state :=
  add_expense Sqlite.in_order
    (add_expense Sqlite.in_order
       (add_expense Sqlite.in_order
          (add_expense Sqlite.in_order first_start
             "2024-01-05" "Entertainment" "0.1")
          "2024-01-06" "Entertainment" "0.2")
       "2024-01-07" "Entertainment" "0.3")
    "2024-01-08" "Rent" "3.4".

(** Entertainment at 15% of the spending to the cent: 0.45 of 3.00. *)
Definition fifteen_percent : state :=
  add_expense Sqlite.in_order
    (add_expense Sqlite.in_order first_start "2024-01-05" "Entertainment" "0.45")
    "2024-01-06" "Rent" "2.55".

(** A file that opens for writing on a medium with room for one more
    row, holding the rows of an earlier export. *)
Definition nearly_full : destination :=
  {| opens := true;
     room := 1;
     oserror := "[Errno 28] No space left on device";
     holds := [header; [Int 7; Str "2023-12-31"; Str "Rent"; Real (70 # 1)]] |}.

(** ** The spellings of a day

    The ways the format of [strptime] lets a month and a day be written:
    two digits, or one digit for a value below 10, or for the day a blank
    and one digit. *)
Definition month_spellings (m : Z) : list (list ascii) :=
  Text.zero_padded 2 m
  :: (if m <? 10 then [[Text.digit_char m]] else []).

Definition day_spellings (d : Z) : list (list ascii) :=
  Text.zero_padded 2 d
  :: (if d <? 10
      then [[Text.digit_char d]; [ascii_of_N Text.blank; Text.digit_char d]]
      else []).

Definition spelled (y : Z) (month day : list ascii) : string :=
  string_of_list_ascii
    (Text.zero_padded 4 y ++ [ascii_of_N Text.dash] ++ month
     ++ [ascii_of_N Text.dash] ++ day).

(** [Calendar(date_pattern="yyyy-mm-dd").get_date()]: the day selected in
    the calendar, year, month and day with their leading zeros. *)
Definition get_date (y m d : Z) : string :=
  spelled y (Text.zero_padded 2 m) (Text.zero_padded 2 d).

(** One day of the calendar is not after another. *)
Definition day_le (a b : Z * Z * Z) : Prop :=
  let '(y1, m1, d1) := a in
  let '(y2, m2, d2) := b in
  y1 < y2 \/ (y1 = y2 /\ (m1 < m2 \/ (m1 = m2 /\ d1 <= d2))).

(** ** Proof automation *)

(** Membership in a list of the three messages, which differ. *)
Ltac not_listed H :=
  simpl in H; repeat (destruct H as [H|H]; [discriminate H|]); contradiction H.

Ltac listed := simpl; solve [left; reflexivity | right; left; reflexivity].

Ltac settle :=
  solve [ assumption | reflexivity | listed | discriminate
        | match goal with H : ~ _ |- _ => exfalso; apply H; solve [assumption | listed] end
        | match goal with H : In _ _ |- _ => not_listed H end
        | intros [? ?]; settle
        | intros ?; settle
        | split; settle ].

(** One position of the comparison of two dates, settled by arithmetic. *)
Ltac order_leaf :=
  unfold day_le; split; intros ?;
  first [discriminate | reflexivity | lia | (exfalso; lia)].

(** * Properties *)

(** ** The embedding on sample inputs *)

(** [strptime] reads a month or a day without its leading zero, and a day
    written as a blank and a digit; it rejects what is no day of the
    calendar, a year 0000, and text after the day. *)
Example validate_date_samples :
  validate_date "2024-01-05" = true
  /\ validate_date "2024-1-5" = true
  /\ validate_date "2024-01- 5" = true
  /\ validate_date "2024-02-29" = true
  /\ validate_date "2023-02-29" = false
  /\ validate_date "2024-13-05" = false
  /\ validate_date "2024-01-311" = false
  /\ validate_date "2024-01-05 " = false
  /\ validate_date "0000-01-01" = false
  /\ validate_date "05/01/2024" = false
  /\ validate_date "" = false.
Proof. repeat split. Qed.

Example is_iso_date_samples :
  is_iso_date "2024-01-05" = true
  /\ is_iso_date "2024-1-5" = false
  /\ is_iso_date "2024-01- 5" = false
  /\ is_iso_date "2024-02-30" = false.
Proof. repeat split. Qed.

Example float_samples :
  PyFloat.float "12.50" = Some (25 # 2)
  /\ PyFloat.float " 1_000.5e-1 " = Some (2001 # 20)
  /\ PyFloat.float ".5" = Some (1 # 2)
  /\ PyFloat.float "5." = Some (5 # 1)
  /\ PyFloat.float "-3" = Some (-3 # 1)
  /\ PyFloat.float "abc" = None
  /\ PyFloat.float "1e" = None
  /\ PyFloat.float "." = None
  /\ PyFloat.float "1__0" = None
  /\ PyFloat.float "" = None.
Proof. repeat split. Qed.

(** A tab before the number is skipped; the unit separator (byte 31), which
    [str.strip] would drop, is not. *)
Example float_white_space_samples :
  PyFloat.float (String (ascii_of_N 9) "12.5") = Some (25 # 2)
  /\ PyFloat.float (String (ascii_of_N 31) "12.5") = None.
Proof. repeat split. Qed.

(** A value too small for a binary64 reads as 0.0 and is no amount. *)
Example validate_amount_samples :
  validate_amount "12.50" = true
  /\ validate_amount "1e2" = true
  /\ validate_amount "0" = false
  /\ validate_amount "0.0" = false
  /\ validate_amount "-3" = false
  /\ validate_amount "ten" = false
  /\ validate_amount "3e-324" = true
  /\ validate_amount "2e-324" = false.
Proof. repeat split; vm_compute; reflexivity. Qed.

(** Binary64: the nearest numbers to 0.1 and 0.3, the sum 0.1 + 0.2 one
    unit above 0.3, the product 3.0 * 0.15 one unit below 0.45, and the
    decimals that round to infinity and to zero. *)
Example binary64_samples :
  Binary64.nearest (1 # 10) = S754_finite false 7205759403792794 (-56)
  /\ Binary64.nearest (3 # 10) = S754_finite false 5404319552844595 (-54)
  /\ Binary64.add (Binary64.nearest (1 # 10)) (Binary64.nearest (2 # 10))
     = S754_finite false 5404319552844596 (-54)
  /\ Binary64.nearest (45 # 100) = S754_finite false 8106479329266893 (-54)
  /\ Binary64.mul (Binary64.nearest 3) (Binary64.nearest (15 # 100))
     = S754_finite false 8106479329266892 (-54)
  /\ Binary64.nearest (inject_Z (10 ^ 400)) = S754_infinity false
  /\ Binary64.nearest PyFloat.half_least_positive = S754_zero false
  /\ Binary64.nearest (3 # Pos.shiftl 1 1076) = S754_finite false 1 (-1074).
Proof. repeat split; vm_compute; reflexivity. Qed.

(** The recommendations in binary64, on the example of the specification
    and at the edge of a rule.  With 0.45 of entertainment in 3.00 the
    product 3.0 * 0.15 falls below 0.45 and the advice is given, where
    exact arithmetic finds 15% and no more.  With 0.1, 0.2 and 0.3 of
    entertainment in 4.00 the advice depends on the order in which SUM
    meets the rows: added as stored they come to 0.6000000000000001, above
    4.0 * 0.15, added last first to 0.6, which is not. *)
Example binary64_recommendations :
  Over.get_spending_insights binary64 Sqlite.in_order (db three_expenses)
  = [dining_advice]
  /\ Over.get_spending_insights binary64 Sqlite.in_order (db fifteen_percent)
     = [entertainment_advice]
  /\ get_spending_insights Sqlite.in_order (db fifteen_percent)
     = [doing_great]
  /\ Over.get_spending_insights binary64 Sqlite.in_order
       (db tenths_of_entertainment)
     = [entertainment_advice]
  /\ Over.get_spending_insights binary64 Sqlite.reversed
       (db tenths_of_entertainment)
     = [doing_great].
Proof. repeat split; vm_compute; reflexivity. Qed.

(** To SQLite a date without its leading zeros is no date; for a day the
    month does not have, the month is printed as written. *)
Example strftime_samples :
  Sqlite.strftime_Ym "2024-01-05" = Some "2024-01"
  /\ Sqlite.strftime_Ym "0007-12-31" = Some "0007-12"
  /\ Sqlite.strftime_Ym "2024-02-30" = Some "2024-02"
  /\ Sqlite.strftime_Ym "2024-1-5" = None
  /\ Sqlite.strftime_Ym "2024-01- 5" = None.
Proof. repeat split. Qed.

(** Compared as text, a date without its leading zeros falls outside the
    month it belongs to. *)
Example between_samples :
  Sqlite.between "2024-01-05" "2024-01-01" "2024-01-31" = true
  /\ Sqlite.between "2024-01-31" "2024-01-01" "2024-01-31" = true
  /\ Sqlite.between "2024-02-01" "2024-01-01" "2024-01-31" = false
  /\ Sqlite.between "2024-1-5" "2024-01-01" "2024-01-31" = false.
Proof. repeat split. Qed.

Example contains_nocase_samples :
  Text.contains_nocase "Dining Out" "dining out" = true
  /\ Text.contains_nocase "Dining Out" "Friday DINING OUT with friends" = true
  /\ Text.contains_nocase "Dining Out" "Dining" = false
  /\ Text.contains_nocase "Entertainment" "Home entertainment" = true.
Proof. repeat split. Qed.

(** ** Sums of amounts *)

Section Sums.

Local Open Scope Q_scope.

Lemma fold_Qplus_acc (l : list Q) (a : Q) :
  fold_left Qplus l a == a + Qsum l.
Proof.
  unfold Qsum. revert a.
  induction l as [|x l IH]; intros a; simpl.
  - ring.
  - rewrite (IH (a + x)), (IH (0 + x)). ring.
Qed.

Lemma Qsum_cons (x : Q) (l : list Q) : Qsum (x :: l) == x + Qsum l.
Proof.
  unfold Qsum at 1. simpl. rewrite fold_Qplus_acc. ring.
Qed.

Lemma Qsum_app (l1 l2 : list Q) : Qsum (l1 ++ l2) == Qsum l1 + Qsum l2.
Proof.
  induction l1 as [|x l1 IH]; simpl.
  - unfold Qsum at 2. simpl. ring.
  - rewrite !Qsum_cons, IH. ring.
Qed.

Lemma Qsum_perm (l1 l2 : list Q) : Permutation l1 l2 -> Qsum l1 == Qsum l2.
Proof.
  induction 1 as [|x l1 l2 _ IH|x y l|l1 l2 l3 _ IH1 _ IH2].
  - reflexivity.
  - rewrite !Qsum_cons, IH. reflexivity.
  - rewrite !Qsum_cons. ring.
  - rewrite IH1. exact IH2.
Qed.

Lemma Qsum_nonneg (l : list Q) : Forall (fun x => 0 <= x) l -> 0 <= Qsum l.
Proof.
  induction 1 as [|x l Hx _ IH].
  - unfold Qsum. simpl. apply Qle_refl.
  - rewrite Qsum_cons.
    setoid_replace 0 with (0 + 0) by ring.
    apply Qplus_le_compat; assumption.
Qed.

Lemma Qsum_pos (x : Q) (l : list Q) :
  Forall (fun x => 0 < x) (x :: l) -> 0 < Qsum (x :: l).
Proof.
  intros H. inversion H as [|? ? Hx Hl]; subst.
  rewrite Qsum_cons.
  setoid_replace 0 with (0 + 0) by ring.
  apply Qplus_lt_le_compat; [exact Hx|].
  apply Qsum_nonneg.
  eapply Forall_impl; [|exact Hl]. intros a Ha. apply Qlt_le_weak, Ha.
Qed.

Lemma total_Qsum (rows : list Expense) : total rows = Qsum (map amount rows).
Proof. reflexivity. Qed.

Lemma amount_sum_Qsum (df : list (string * Q)) :
  amount_sum df = Qsum (map snd df).
Proof. reflexivity. Qed.

Lemma total_perm (r1 r2 : list Expense) :
  Permutation r1 r2 -> total r1 == total r2.
Proof.
  intros H. rewrite !total_Qsum. apply Qsum_perm, Permutation_map, H.
Qed.

Lemma gt_spec (a b : Q) : gt a b = true <-> b < a.
Proof.
  unfold gt. rewrite negb_true_iff.
  split; intros H.
  - apply Qnot_le_lt. intros Hle.
    apply Qle_bool_iff in Hle. congruence.
  - destruct (Qle_bool a b) eqn:Hb; [|reflexivity].
    apply Qle_bool_iff in Hb. exfalso.
    exact (Qlt_not_le _ _ H Hb).
Qed.

End Sums.

(** ** GROUP BY with SUM, for any key order *)

Section GroupFacts.

Context {K : Type} (cmp : K -> K -> comparison).
Hypothesis cmp_eq : forall a b, cmp a b = Eq <-> a = b.
Hypothesis cmp_flip : forall a b, cmp a b = CompOpp (cmp b a).
Hypothesis cmp_trans :
  forall a b c, cmp a b = Lt -> cmp b c = Lt -> cmp a c = Lt.

Local Abbreviation before := (fun a b : K => cmp a b = Lt).
Local Abbreviation step :=
  (fun (groups : list (K * Q)) (r : K * Q) =>
     Sqlite.accumulate cmp (fst r) (snd r) groups).
Local Abbreviation on p := (fun r : K * Q => p (fst r)).

Lemma accumulate_keys (k : K) (a : Q) (g : list (K * Q)) (x : K) :
  In x (map fst (Sqlite.accumulate cmp k a g)) <-> x = k \/ In x (map fst g).
Proof.
  induction g as [|[k' t] g IH]; simpl.
  - intuition.
  - destruct (cmp k k') eqn:Hc; simpl.
    + apply cmp_eq in Hc. subst k'. intuition.
    + intuition.
    + rewrite IH. intuition.
Qed.

Lemma accumulate_hd (x k : K) (a : Q) (g : list (K * Q)) :
  cmp x k = Lt -> HdRel before x (map fst g) ->
  HdRel before x (map fst (Sqlite.accumulate cmp k a g)).
Proof.
  intros Hx Hg.
  destruct g as [|[k' t] g]; simpl.
  - constructor. exact Hx.
  - destruct (cmp k k'); simpl; constructor;
      solve [exact Hx | inversion Hg; assumption].
Qed.

Lemma accumulate_sorted (k : K) (a : Q) (g : list (K * Q)) :
  Sorted before (map fst g) ->
  Sorted before (map fst (Sqlite.accumulate cmp k a g)).
Proof.
  induction g as [|[k' t] g IH]; simpl; intros Hs.
  - repeat constructor.
  - inversion Hs as [|? ? Hs' Hhd]; subst.
    destruct (cmp k k') eqn:Hc; simpl.
    + constructor; assumption.
    + constructor; [exact Hs|]. constructor. exact Hc.
    + constructor; [apply IH, Hs'|].
      apply accumulate_hd; [|exact Hhd].
      rewrite cmp_flip, Hc. reflexivity.
Qed.

Lemma accumulate_filter_sum (p : K -> bool) (k : K) (a : Q)
    (g : list (K * Q)) :
  (Qsum (map snd (filter (on p) (Sqlite.accumulate cmp k a g)))
   == Qsum (map snd (filter (on p) g)) + (if p k then a else 0))%Q.
Proof.
  induction g as [|[k' t] g IH]; simpl.
  - destruct (p k); simpl; [rewrite Qsum_cons|]; unfold Qsum; simpl; ring.
  - destruct (cmp k k') eqn:Hc; simpl.
    + apply cmp_eq in Hc. subst k'.
      destruct (p k); simpl; [rewrite !Qsum_cons|]; ring.
    + destruct (p k), (p k'); simpl; rewrite ?Qsum_cons; ring.
    + destruct (p k'); simpl; rewrite ?Qsum_cons, IH; ring.
Qed.

Lemma group_keys (rows g : list (K * Q)) (x : K) :
  In x (map fst (fold_left step rows g))
  <-> In x (map fst rows) \/ In x (map fst g).
Proof.
  revert g. induction rows as [|[k a] rows IH]; intros g; simpl.
  - intuition.
  - rewrite IH, accumulate_keys. intuition.
Qed.

Lemma group_sorted (rows g : list (K * Q)) :
  Sorted before (map fst g) ->
  Sorted before (map fst (fold_left step rows g)).
Proof.
  revert g. induction rows as [|[k a] rows IH]; intros g Hg; simpl.
  - exact Hg.
  - apply IH, accumulate_sorted, Hg.
Qed.

Lemma group_filter_sum (p : K -> bool) (rows g : list (K * Q)) :
  (Qsum (map snd (filter (on p) (fold_left step rows g)))
   == Qsum (map snd (filter (on p) g))
      + Qsum (map snd (filter (on p) rows)))%Q.
Proof.
  revert g. induction rows as [|[k a] rows IH]; intros g; simpl.
  - unfold Qsum at 3. simpl. ring.
  - rewrite IH, accumulate_filter_sum.
    destruct (p k); simpl; rewrite ?Qsum_cons; ring.
Qed.

Lemma filter_all {A : Type} (l : list A) : filter (fun _ => true) l = l.
Proof. induction l; simpl; congruence. Qed.

Lemma group_sum_total (rows : list (K * Q)) :
  (Qsum (map snd (Sqlite.group_sum cmp rows)) == Qsum (map snd rows))%Q.
Proof.
  unfold Sqlite.group_sum.
  pose proof (group_filter_sum (fun _ => true) rows []) as H.
  rewrite !filter_all in H. rewrite H.
  unfold Qsum at 1. simpl. ring.
Qed.

Lemma before_trans : Relations_1.Transitive before.
Proof. intros a b c. apply cmp_trans. Qed.

Lemma before_irrefl (a : K) : cmp a a <> Lt.
Proof.
  assert (H : cmp a a = Eq) by (apply cmp_eq; reflexivity).
  congruence.
Qed.

Lemma sorted_keys_nodup (ks : list K) : Sorted before ks -> NoDup ks.
Proof.
  intros Hs. apply Sorted_StronglySorted in Hs; [|exact before_trans].
  induction Hs as [|k ks _ IH Hall]; constructor; [|exact IH].
  intros Hin. rewrite Forall_forall in Hall.
  exact (before_irrefl k (Hall k Hin)).
Qed.

Lemma same_key_spec (k x : K) : Sqlite.same_key cmp k x = true <-> x = k.
Proof.
  unfold Sqlite.same_key. rewrite <- cmp_eq.
  destruct (cmp x k); intuition discriminate.
Qed.

Lemma nodup_group_total (g : list (K * Q)) (k : K) (t : Q) :
  NoDup (map fst g) -> In (k, t) g ->
  (Qsum (map snd (filter (on (Sqlite.same_key cmp k)) g)) == t)%Q.
Proof.
  induction g as [|[k' t'] g IH]; simpl; intros Hnd Hin; [contradiction|].
  inversion Hnd as [|? ? Hnot Hnd']; subst.
  destruct Hin as [Heq|Hin].
  - inversion Heq; subst.
    assert (Hk : Sqlite.same_key cmp k k = true) by (apply same_key_spec; reflexivity).
    rewrite Hk. simpl. rewrite Qsum_cons.
    assert (Hnone : filter (on (Sqlite.same_key cmp k)) g = []).
    { clear -Hnot cmp_eq. induction g as [|[k1 t1] g IHg]; simpl; [reflexivity|].
      simpl in Hnot.
      destruct (Sqlite.same_key cmp k k1) eqn:Hs.
      - apply same_key_spec in Hs. subst. exfalso. apply Hnot. now left.
      - apply IHg. intros H. apply Hnot. now right. }
    rewrite Hnone. unfold Qsum. simpl. ring.
  - destruct (Sqlite.same_key cmp k k') eqn:Hs.
    + apply same_key_spec in Hs. subst k'.
      exfalso. apply Hnot. apply (in_map fst) in Hin. exact Hin.
    + apply IH; assumption.
Qed.

End GroupFacts.

(** ** GROUP BY with any aggregate *)

Section GroupRowsFacts.

Context {K V : Type} (cmp : K -> K -> comparison).
Hypothesis cmp_eq : forall a b, cmp a b = Eq <-> a = b.
Hypothesis cmp_flip : forall a b, cmp a b = CompOpp (cmp b a).
Hypothesis cmp_trans :
  forall a b c, cmp a b = Lt -> cmp b c = Lt -> cmp a c = Lt.

Local Abbreviation before := (fun a b : K => cmp a b = Lt).
Local Abbreviation step :=
  (fun (keys : list K) (r : K * V) => Sqlite.insert_key cmp (fst r) keys).

Lemma insert_key_In (k : K) (ks : list K) (x : K) :
  In x (Sqlite.insert_key cmp k ks) <-> x = k \/ In x ks.
Proof.
  induction ks as [|k' ks IH]; simpl.
  - intuition.
  - destruct (cmp k k') eqn:Hc; simpl.
    + apply cmp_eq in Hc. subst k'. intuition.
    + intuition.
    + rewrite IH. intuition.
Qed.

Lemma insert_key_hd (x k : K) (ks : list K) :
  cmp x k = Lt -> HdRel before x ks ->
  HdRel before x (Sqlite.insert_key cmp k ks).
Proof.
  intros Hx Hks.
  destruct ks as [|k' ks]; simpl.
  - constructor. exact Hx.
  - destruct (cmp k k'); simpl; constructor;
      solve [exact Hx | inversion Hks; assumption].
Qed.

Lemma insert_key_sorted (k : K) (ks : list K) :
  Sorted before ks -> Sorted before (Sqlite.insert_key cmp k ks).
Proof.
  induction ks as [|k' ks IH]; simpl; intros Hs.
  - repeat constructor.
  - inversion Hs as [|? ? Hs' Hhd]; subst.
    destruct (cmp k k') eqn:Hc; simpl.
    + exact Hs.
    + constructor; [exact Hs|]. constructor. exact Hc.
    + constructor; [apply IH, Hs'|].
      apply insert_key_hd; [|exact Hhd].
      rewrite cmp_flip, Hc. reflexivity.
Qed.

Lemma distinct_keys_fold (rows : list (K * V)) (ks : list K) (x : K) :
  In x (fold_left step rows ks) <-> In x (map fst rows) \/ In x ks.
Proof.
  revert ks. induction rows as [|[k v] rows IH]; intros ks; simpl.
  - intuition.
  - rewrite IH, insert_key_In. intuition.
Qed.

Lemma distinct_keys_In (rows : list (K * V)) (x : K) :
  In x (Sqlite.distinct_keys cmp rows) <-> In x (map fst rows).
Proof.
  unfold Sqlite.distinct_keys. rewrite distinct_keys_fold. simpl. intuition.
Qed.

Lemma distinct_keys_sorted (rows : list (K * V)) :
  Sorted before (Sqlite.distinct_keys cmp rows).
Proof.
  unfold Sqlite.distinct_keys.
  assert (H : forall ks, Sorted before ks -> Sorted before (fold_left step rows ks)).
  { induction rows as [|[k v] rows IH]; intros ks Hks; simpl.
    - exact Hks.
    - apply IH, insert_key_sorted, Hks. }
  apply H. constructor.
Qed.

Lemma distinct_keys_nodup (rows : list (K * V)) :
  NoDup (Sqlite.distinct_keys cmp rows).
Proof.
  apply (sorted_keys_nodup cmp cmp_eq cmp_trans), distinct_keys_sorted.
Qed.

Lemma group_by_keys {T : Type} (aggregate : list V -> T)
    (rows : list (K * V)) :
  map fst (Sqlite.group_by cmp aggregate rows) = Sqlite.distinct_keys cmp rows.
Proof.
  unfold Sqlite.group_by. rewrite map_map. simpl. apply map_id.
Qed.


(** The part of a GROUP BY result whose keys satisfy [p]. *)
Lemma group_by_filter {T : Type} (aggregate : list V -> T) (p : K -> bool)
    (rows : list (K * V)) :
  map snd (filter (fun r => p (fst r)) (Sqlite.group_by cmp aggregate rows))
  = map (fun k => aggregate (Sqlite.group cmp rows k))
        (filter p (Sqlite.distinct_keys cmp rows)).
Proof.
  unfold Sqlite.group_by.
  induction (Sqlite.distinct_keys cmp rows) as [|k ks IH]; simpl;
    [reflexivity|].
  destruct (p k); simpl; rewrite IH; reflexivity.
Qed.

(** A value goes into the group of its key and into no other. *)
Lemma groups_cons (k0 : K) (v : V) (g : K -> list V) (ks : list K) :
  NoDup ks -> In k0 ks ->
  Permutation
    (List.concat (map (fun k => if Sqlite.same_key cmp k k0 then v :: g k else g k)
                 ks))
    (v :: List.concat (map g ks)).
Proof.
  induction ks as [|k ks IH]; intros Hnd Hin; [contradiction|].
  inversion Hnd as [|? ? Hnot Hnd']; subst. simpl.
  destruct (Sqlite.same_key cmp k k0) eqn:Hs.
  - apply (same_key_spec cmp cmp_eq) in Hs. subst k0.
    rewrite (map_ext_in _ g); [reflexivity|].
    intros k1 Hk1.
    destruct (Sqlite.same_key cmp k1 k) eqn:Hs1; [|reflexivity].
    apply (same_key_spec cmp cmp_eq) in Hs1. subst k1. contradiction.
  - destruct Hin as [->|Hin].
    + assert (Hk : Sqlite.same_key cmp k0 k0 = true)
        by (apply (same_key_spec cmp cmp_eq); reflexivity).
      congruence.
    + eapply Permutation_trans;
        [apply Permutation_app_head, IH; assumption|].
      apply Permutation_sym, Permutation_middle.
Qed.

(** The groups of a list of keys without repetition that holds the key of
    every row are the rows, rearranged. *)
Lemma groups_perm (ks : list K) (rows : list (K * V)) :
  NoDup ks -> (forall r, In r rows -> In (fst r) ks) ->
  Permutation (List.concat (map (Sqlite.group cmp rows) ks)) (map snd rows).
Proof.
  intros Hnd. induction rows as [|[k0 v] rows IH]; intros Hall.
  - unfold Sqlite.group. simpl.
    clear. induction ks; simpl; [constructor|assumption].
  - simpl map.
    eapply Permutation_trans;
      [|apply perm_skip, IH; intros r Hr; apply Hall; right; exact Hr].
    eapply Permutation_trans;
      [|apply (groups_cons k0 v (Sqlite.group cmp rows) ks Hnd);
        apply (Hall (k0, v)); left; reflexivity].
    apply Permutation_refl'. f_equal. apply map_ext. intros k.
    unfold Sqlite.group. cbn [filter fst].
    destruct (Sqlite.same_key cmp k k0); reflexivity.
Qed.

(** The same for the keys that satisfy [p]. *)
Lemma group_of_filtered (p : K -> bool) (rows : list (K * V)) (k : K) :
  p k = true ->
  Sqlite.group cmp (filter (fun r => p (fst r)) rows) k
  = Sqlite.group cmp rows k.
Proof.
  intros Hk. unfold Sqlite.group. f_equal.
  induction rows as [|[k0 v] rows IH]; simpl; [reflexivity|].
  destruct (p k0) eqn:Hp; simpl; rewrite IH; [reflexivity|].
  destruct (Sqlite.same_key cmp k k0) eqn:Hs; [|reflexivity].
  apply (same_key_spec cmp cmp_eq) in Hs. congruence.
Qed.

Lemma groups_perm_filter (p : K -> bool) (rows : list (K * V)) :
  Permutation
    (List.concat (map (Sqlite.group cmp rows)
                      (filter p (Sqlite.distinct_keys cmp rows))))
    (map snd (filter (fun r => p (fst r)) rows)).
Proof.
  rewrite (map_ext_in (Sqlite.group cmp rows)
             (Sqlite.group cmp (filter (fun r => p (fst r)) rows))).
  - apply groups_perm.
    + apply NoDup_filter, distinct_keys_nodup.
    + intros r Hr. apply filter_In in Hr. destruct Hr as (Hr & Hp).
      apply filter_In. split; [|exact Hp].
      apply distinct_keys_In, in_map, Hr.
  - intros k Hk. apply filter_In in Hk. destruct Hk as (_ & Hk).
    symmetry. apply group_of_filtered, Hk.
Qed.

End GroupRowsFacts.

(** The accumulators of [Sqlite.group_sum] hold what [Sqlite.group_by]
    yields with the exact sum for aggregate: the same keys in the same
    order, each with the sum of its group. *)
Section GroupSumIsGroupBy.

Context {K : Type} (cmp : K -> K -> comparison).
Hypothesis cmp_eq : forall a b, cmp a b = Eq <-> a = b.
Hypothesis cmp_flip : forall a b, cmp a b = CompOpp (cmp b a).
Hypothesis cmp_trans :
  forall a b c, cmp a b = Lt -> cmp b c = Lt -> cmp a c = Lt.

Lemma accumulate_insert_key (k : K) (a : Q) (g : list (K * Q)) :
  map fst (Sqlite.accumulate cmp k a g) = Sqlite.insert_key cmp k (map fst g).
Proof.
  induction g as [|[k' t] g IH]; simpl; [reflexivity|].
  destruct (cmp k k'); simpl; [reflexivity|reflexivity|].
  rewrite IH. reflexivity.
Qed.

Lemma group_sum_keys (rows : list (K * Q)) :
  map fst (Sqlite.group_sum cmp rows) = Sqlite.distinct_keys cmp rows.
Proof.
  unfold Sqlite.group_sum, Sqlite.distinct_keys.
  change (@nil K) with (map fst (@nil (K * Q))).
  generalize (@nil (K * Q)) as g.
  induction rows as [|[k a] rows IH]; intros g; simpl; [reflexivity|].
  rewrite IH, accumulate_insert_key. reflexivity.
Qed.

Lemma group_sum_is_group_by (rows : list (K * Q)) :
  Forall2 (fun r r' => fst r = fst r' /\ (snd r == snd r')%Q)
    (Sqlite.group_sum cmp rows) (Sqlite.group_by cmp Qsum rows).
Proof.
  assert (Hnd : NoDup (map fst (Sqlite.group_sum cmp rows))).
  { rewrite group_sum_keys. apply distinct_keys_nodup; assumption. }
  assert (Htotal : forall k t, In (k, t) (Sqlite.group_sum cmp rows) ->
                     (t == Qsum (Sqlite.group cmp rows k))%Q).
  { intros k t Hin.
    rewrite <- (nodup_group_total cmp cmp_eq _ k t Hnd Hin).
    unfold Sqlite.group_sum. rewrite (group_filter_sum cmp cmp_eq).
    unfold Qsum at 2. simpl. rewrite Qplus_0_l. reflexivity. }
  unfold Sqlite.group_by. rewrite <- group_sum_keys.
  clear Hnd. induction (Sqlite.group_sum cmp rows) as [|[k t] g IH];
    simpl; constructor.
  - split; [reflexivity|]. apply Htotal. left. reflexivity.
  - apply IH. intros k' t' Hin. apply Htotal. right. exact Hin.
Qed.

End GroupSumIsGroupBy.

(** ** Sums that add exactly *)

Section ExactSums.

Context {N : Type} (plus : N -> N -> N) (zero : N).
Hypothesis plus_comm : forall a b, plus a b = plus b a.
Hypothesis plus_assoc : forall a b c, plus a (plus b c) = plus (plus a b) c.
Hypothesis plus_zero : forall a, plus zero a = a.

Local Abbreviation sum := (fun l : list N => fold_left plus l zero).

Lemma fold_plus_acc (l : list N) (a : N) :
  fold_left plus l a = plus a (sum l).
Proof.
  revert a. induction l as [|x l IH]; intros a; simpl.
  - rewrite plus_comm, plus_zero. reflexivity.
  - rewrite IH, (IH (plus zero x)), plus_zero, plus_assoc. reflexivity.
Qed.

Lemma fold_plus_app (l1 l2 : list N) :
  sum (l1 ++ l2) = plus (sum l1) (sum l2).
Proof. cbv beta. rewrite fold_left_app. apply fold_plus_acc. Qed.

Lemma fold_plus_perm (l1 l2 : list N) :
  Permutation l1 l2 -> sum l1 = sum l2.
Proof.
  induction 1 as [|x l1 l2 _ IH|x y l|l1 l2 l3 _ IH1 _ IH2]; simpl.
  - reflexivity.
  - rewrite (fold_plus_acc l1), (fold_plus_acc l2), IH. reflexivity.
  - rewrite !plus_zero, (plus_comm y x). reflexivity.
  - congruence.
Qed.

Lemma fold_plus_concat (ls : list (list N)) :
  sum (map sum ls) = sum (List.concat ls).
Proof.
  induction ls as [|l ls IH]; [reflexivity|].
  cbn [map List.concat]. rewrite fold_plus_app.
  cbv beta in *. rewrite <- IH.
  cbn [fold_left]. rewrite plus_zero. apply fold_plus_acc.
Qed.

End ExactSums.

(** ** The BINARY collation is a total order *)

Lemma code_inj (x y : ascii) : Text.code x = Text.code y -> x = y.
Proof.
  unfold Text.code. intros H.
  rewrite <- (ascii_N_embedding x), <- (ascii_N_embedding y), H.
  reflexivity.
Qed.

Lemma memcmp_eq (a b : string) : Sqlite.memcmp a b = Eq <-> a = b.
Proof.
  revert b. induction a as [|x a IH]; intros [|y b]; simpl;
    try (split; [discriminate|discriminate]); try tauto.
  destruct (Text.code x ?= Text.code y)%N eqn:Hc.
  - apply N.compare_eq_iff, code_inj in Hc. subst y.
    rewrite IH. split; [intros ->; reflexivity|intros H; inversion H; reflexivity].
  - split; [discriminate|]. intros H. inversion H; subst.
    rewrite N.compare_refl in Hc. discriminate.
  - split; [discriminate|]. intros H. inversion H; subst.
    rewrite N.compare_refl in Hc. discriminate.
Qed.

Lemma memcmp_flip (a b : string) :
  Sqlite.memcmp a b = CompOpp (Sqlite.memcmp b a).
Proof.
  revert b. induction a as [|x a IH]; intros [|y b]; simpl; try reflexivity.
  rewrite (N.compare_antisym (Text.code x) (Text.code y)).
  destruct (Text.code x ?= Text.code y)%N; simpl; [apply IH|reflexivity|reflexivity].
Qed.

Lemma memcmp_trans (a b c : string) :
  Sqlite.memcmp a b = Lt -> Sqlite.memcmp b c = Lt -> Sqlite.memcmp a c = Lt.
Proof.
  revert b c. induction a as [|x a IH]; intros [|y b] [|z c]; simpl;
    try discriminate; try reflexivity.
  destruct (Text.code x ?= Text.code y)%N eqn:Hxy;
    destruct (Text.code y ?= Text.code z)%N eqn:Hyz; try discriminate; intros H1 H2.
  - apply N.compare_eq_iff in Hxy, Hyz.
    rewrite Hxy, Hyz, N.compare_refl. eapply IH; eassumption.
  - apply N.compare_eq_iff in Hxy. rewrite Hxy, Hyz. reflexivity.
  - apply N.compare_eq_iff in Hyz. rewrite <- Hyz, Hxy. reflexivity.
  - rewrite N.compare_lt_iff in Hxy, Hyz.
    assert (Hxz : (Text.code x ?= Text.code z)%N = Lt)
      by (apply N.compare_lt_iff; lia).
    rewrite Hxz. reflexivity.
Qed.

Lemma nullable_cmp_eq (a b : option string) :
  Sqlite.nullable_cmp a b = Eq <-> a = b.
Proof.
  destruct a as [x|], b as [y|]; simpl;
    try (split; [discriminate|discriminate]); try tauto.
  rewrite memcmp_eq. split; [intros ->; reflexivity|intros H; inversion H; reflexivity].
Qed.

Lemma nullable_cmp_flip (a b : option string) :
  Sqlite.nullable_cmp a b = CompOpp (Sqlite.nullable_cmp b a).
Proof.
  destruct a, b; simpl; try reflexivity. apply memcmp_flip.
Qed.

Lemma nullable_cmp_trans (a b c : option string) :
  Sqlite.nullable_cmp a b = Lt -> Sqlite.nullable_cmp b c = Lt ->
  Sqlite.nullable_cmp a c = Lt.
Proof.
  destruct a, b, c; simpl; try discriminate; try reflexivity.
  apply memcmp_trans.
Qed.

Lemma text_le_lex (a b : string) : Sqlite.text_le a b = true <-> lex_le a b.
Proof.
  unfold Sqlite.text_le. split.
  - revert b. induction a as [|x a IH]; intros b H; [constructor|].
    destruct b as [|y b]; simpl in H; [discriminate|].
    destruct (Text.code x ?= Text.code y)%N eqn:Hc.
    + apply N.compare_eq_iff, code_inj in Hc. subst y.
      apply lex_same, IH, H.
    + apply lex_less, N.compare_lt_iff, Hc.
    + discriminate.
  - induction 1 as [s|x y s t Hlt|x s t _ IH]; simpl.
    + destruct s; reflexivity.
    + apply N.compare_lt_iff in Hlt. rewrite Hlt. reflexivity.
    + rewrite N.compare_refl. exact IH.
Qed.

Lemma strongly_sorted_impl {A : Type} (R R' : A -> A -> Prop) (l : list A) :
  (forall a b, R a b -> R' a b) -> StronglySorted R l -> StronglySorted R' l.
Proof.
  intros HR. induction 1 as [|a l _ IH Hall]; constructor; [exact IH|].
  eapply Forall_impl; [|exact Hall]. intros b. apply HR.
Qed.

(** Strictly before in the BINARY collation is strictly before in the
    lexicographic order of the bytes. *)
Lemma memcmp_lt_lex (a b : string) :
  Sqlite.memcmp a b = Lt -> lex_le a b /\ a <> b.
Proof.
  intros H. split.
  - apply text_le_lex. unfold Sqlite.text_le. rewrite H. reflexivity.
  - intros ->.
    assert (Heq : Sqlite.memcmp b b = Eq) by (apply memcmp_eq; reflexivity).
    congruence.
Qed.

(** ** Rows as the engine hands them out *)

Section EngineFacts.

Variable E : Sqlite.engine.

Lemma emit_In {A : Type} (l : list A) (x : A) :
  In x (Sqlite.emit E l) <-> In x l.
Proof.
  split; apply Permutation_in;
    [apply Sqlite.emit_perm | apply Permutation_sym, Sqlite.emit_perm].
Qed.

Lemma emit_nil {A : Type} : Sqlite.emit E (@nil A) = [].
Proof. apply Permutation_nil, Permutation_sym, Sqlite.emit_perm. Qed.

Lemma emit_total (rows : list Expense) :
  (total (Sqlite.emit E rows) == total rows)%Q.
Proof. apply total_perm, Sqlite.emit_perm. Qed.

Lemma emit_map_sum {A : Type} (f : A -> Q) (l : list A) :
  (Qsum (map f (Sqlite.emit E l)) == Qsum (map f l))%Q.
Proof. apply Qsum_perm, Permutation_map, Sqlite.emit_perm. Qed.

Lemma emit_filter_sum {A : Type} (f : A -> Q) (p : A -> bool) (l : list A) :
  (Qsum (map f (filter p (Sqlite.emit E l))) == Qsum (map f (filter p l)))%Q.
Proof.
  apply Qsum_perm, Permutation_map.
  induction (Sqlite.emit_perm E A l) as [|x l1 l2 _ IH|x y l0|l1 l2 l3 _ IH1 _ IH2];
    simpl.
  - constructor.
  - destruct (p x); [constructor|]; exact IH.
  - destruct (p x), (p y); try apply Permutation_refl. constructor.
  - eapply Permutation_trans; eassumption.
Qed.

End EngineFacts.

(** ** Insertion, deletion and the invariant of the store *)

Lemma validate_amount_float (text : string) :
  validate_amount text = true ->
  exists x, PyFloat.float text = Some x /\ (0 < x)%Q.
Proof.
  unfold validate_amount.
  destruct (PyFloat.float text) as [x|]; [|discriminate].
  intros H. exists x. split; [reflexivity|].
  apply (gt_spec x PyFloat.half_least_positive) in H.
  eapply Qlt_trans; [|exact H]. reflexivity.
Qed.

Lemma max_rowid_upper (rows : list Expense) (e : Expense) :
  In e rows -> id e <= max_rowid rows.
Proof.
  induction rows as [|r rows IH]; simpl; [contradiction|].
  intros [->|Hin]; [lia|]. specialize (IH Hin). lia.
Qed.

Lemma next_rowid_above (d : database) (e : Expense) :
  In e (expenses d) -> id e < next_rowid d.
Proof.
  intros Hin. apply max_rowid_upper in Hin. unfold next_rowid. lia.
Qed.

Lemma next_rowid_fresh_store (d : database) :
  expenses d = [] -> sqlite_sequence d = None -> next_rowid d = 1.
Proof.
  unfold next_rowid. intros -> ->. reflexivity.
Qed.

Lemma next_rowid_positive (d : database) : 0 < next_rowid d.
Proof.
  unfold next_rowid.
  assert (0 <= max_rowid (expenses d)).
  { induction (expenses d); simpl; lia. }
  lia.
Qed.

Lemma sorted_snoc (l : list Z) (x : Z) :
  StronglySorted Z.lt l -> Forall (fun y => y < x) l ->
  StronglySorted Z.lt (l ++ [x]).
Proof.
  induction 1 as [|y l _ IH Hy]; simpl; intros Hall.
  - repeat constructor.
  - inversion Hall; subst. constructor; [apply IH; assumption|].
    apply Forall_app. split; [exact Hy|]. repeat constructor. assumption.
Qed.

Lemma insert_ok (d : database) (date category : string) (x : Q) :
  store_ok d -> validate_date date = true -> category <> "" -> (0 < x)%Q ->
  store_ok (insert d date category x).
Proof.
  intros (Hent & (Hsorted & Hseq) & _) Hd Hc Hx.
  unfold store_ok, ids_ok, insert; simpl.
  repeat split.
  - apply Forall_app. split; [exact Hent|]. repeat constructor; assumption.
  - rewrite map_app. simpl. apply sorted_snoc; [exact Hsorted|].
    apply Forall_map, Forall_forall. intros e He.
    apply next_rowid_above, He.
  - apply Forall_app. split.
    + apply Forall_forall. intros e He.
      rewrite Forall_forall in Hseq. destruct (Hseq e He) as [Hpos _].
      split; [exact Hpos|]. eexists. split; [reflexivity|].
      apply Z.lt_le_incl, next_rowid_above, He.
    + repeat constructor; simpl; [apply next_rowid_positive|].
      eexists. split; [reflexivity|lia].
  - intros H. destruct (expenses d); discriminate.
Qed.

Lemma filter_filter {A : Type} (f g : A -> bool) (l : list A) :
  filter f (filter g l) = filter (fun x => g x && f x) l.
Proof.
  induction l as [|x l IH]; simpl; [reflexivity|].
  destruct (g x); simpl; [destruct (f x)|]; rewrite IH; reflexivity.
Qed.

(** The loop of [delete_expense] removes the selected rows and nothing else. *)
Lemma delete_loop (selected_items : list Z) (d : database) :
  fold_left delete_where_id selected_items d
  = {| expenses :=
         filter (fun e => negb (is_selected selected_items e)) (expenses d);
       sqlite_sequence := sqlite_sequence d |}.
Proof.
  revert d. induction selected_items as [|i sel IH]; intros d; simpl.
  - unfold is_selected; simpl. rewrite filter_all.
    destruct d; reflexivity.
  - rewrite IH. unfold delete_where_id; simpl.
    rewrite filter_filter. f_equal.
    apply filter_ext. intros e. unfold is_selected; simpl.
    rewrite negb_orb. reflexivity.
Qed.

Lemma sorted_filter (f : Expense -> bool) (rows : list Expense) :
  StronglySorted Z.lt (map id rows) ->
  StronglySorted Z.lt (map id (filter f rows)).
Proof.
  induction rows as [|r rows IH]; simpl; intros Hs; [constructor|].
  inversion Hs as [|? ? Hs' Hall]; subst.
  destruct (f r); simpl; [|apply IH, Hs'].
  constructor; [apply IH, Hs'|].
  rewrite Forall_forall in *. intros y Hy.
  apply Hall. apply in_map_iff in Hy. destruct Hy as (e & <- & He).
  apply filter_In in He. apply in_map, He.
Qed.

Lemma filter_keeps_ok (f : Expense -> bool) (d : database) :
  Forall entry_ok (expenses d) /\ ids_ok d ->
  let d' := {| expenses := filter f (expenses d);
               sqlite_sequence := sqlite_sequence d |} in
  Forall entry_ok (expenses d') /\ ids_ok d'.
Proof.
  intros (Hent & Hsorted & Hseq). simpl. unfold ids_ok; simpl.
  repeat split.
  - rewrite Forall_forall in *. intros e He. apply Hent.
    apply filter_In in He. apply He.
  - apply sorted_filter, Hsorted.
  - rewrite Forall_forall in *. intros e He. apply Hseq.
    apply filter_In in He. apply He.
Qed.

(** ** What each callback does to the table *)

Section CallbackFacts.

Variable E : Sqlite.engine.

(** [add_expense] either reports the first field that fails and leaves the
    table alone, or inserts one row made of the three fields. *)
Lemma add_expense_cases (st : state) (date category amount : string) :
  let st' := add_expense E st date category amount in
  (validate_date date = false
   /\ status_label (win st') = invalid_date /\ db st' = db st)
  \/ (validate_date date = true /\ category = ""
      /\ status_label (win st') = empty_category /\ db st' = db st)
  \/ (validate_date date = true /\ category <> ""
      /\ validate_amount amount = false
      /\ status_label (win st') = invalid_amount /\ db st' = db st)
  \/ (validate_date date = true /\ category <> ""
      /\ validate_amount amount = true
      /\ status_label (win st') = added
      /\ exists x, PyFloat.float amount = Some x /\ (0 < x)%Q
           /\ db st' = insert (db st) date category x).
Proof.
  unfold add_expense.
  destruct (validate_date date) eqn:Hd; simpl; [|left; auto].
  right.
  destruct (String.eqb_spec category "") as [Hc|Hc]; [left; auto|].
  right.
  destruct (validate_amount amount) eqn:Ha; simpl; [|left; auto].
  right.
  destruct (validate_amount_float amount Ha) as (x & Hx & Hpos).
  rewrite Hx. simpl. repeat split; auto. exists x. auto.
Qed.

Lemma delete_expense_db (st : state) (selected_items : list Z) :
  db (delete_expense E st selected_items)
  = match selected_items with
    | [] => db st
    | _ :: _ =>
        let rows :=
          filter (fun e => negb (is_selected selected_items e))
                 (expenses (db st)) in
        {| expenses := rows;
           sqlite_sequence :=
             match rows with
             | [] => None
             | _ :: _ => sqlite_sequence (db st)
             end |}
    end.
Proof.
  destruct selected_items as [|i sel]; [reflexivity|].
  unfold delete_expense. rewrite delete_loop. simpl expenses.
  destruct (filter _ (expenses (db st))); reflexivity.
Qed.

Lemma delete_expense_rows (st : state) (selected_items : list Z) :
  expenses (db (delete_expense E st selected_items))
  = filter (fun e => negb (is_selected selected_items e)) (expenses (db st)).
Proof.
  rewrite delete_expense_db.
  destruct selected_items as [|i sel]; [|reflexivity].
  unfold is_selected; simpl. rewrite filter_all. reflexivity.
Qed.

Lemma new_database_ok : store_ok new_database.
Proof.
  unfold store_ok, ids_ok; simpl. repeat split; constructor.
Qed.

Lemma add_expense_ok (st : state) (date category amount : string) :
  store_ok (db st) -> store_ok (db (add_expense E st date category amount)).
Proof.
  intros Hok.
  destruct (add_expense_cases st date category amount)
    as [(_ & _ & ->)|[(_ & _ & _ & ->)|[(_ & _ & _ & _ & ->)
        |(Hd & Hc & _ & _ & x & _ & Hx & ->)]]]; try exact Hok.
  apply insert_ok; assumption.
Qed.

Lemma delete_expense_ok (st : state) (selected_items : list Z) :
  store_ok (db st) -> store_ok (db (delete_expense E st selected_items)).
Proof.
  intros Hok. rewrite delete_expense_db.
  destruct selected_items as [|i sel]; [exact Hok|].
  destruct Hok as (Hent & Hids & _).
  pose proof (filter_keeps_ok
                (fun e => negb (is_selected (i :: sel) e)) (db st)
                (conj Hent Hids)) as (Hent' & Hsorted' & Hseq').
  simpl in Hent', Hsorted', Hseq'.
  cbv zeta. unfold store_ok, ids_ok. simpl expenses. simpl sqlite_sequence.
  destruct (filter _ (expenses (db st))) as [|e rows] eqn:Hrows.
  - repeat split; constructor.
  - repeat split; try assumption. discriminate.
Qed.

(** Every store the program reaches satisfies the invariant. *)
Lemma reachable_ok (st : state) : reachable E st -> store_ok (db st).
Proof.
  induction 1 as [|st _ IH|st d c a _ IH|st sel _ IH|st _ IH|st _ IH
                  |st d1 d2 _ IH|st path f _ IH|st _ IH]; simpl; try exact IH.
  - exact new_database_ok.
  - apply add_expense_ok, IH.
  - apply delete_expense_ok, IH.
  - exact new_database_ok.
  - unfold export_to_csv.
    destruct (String.eqb path ""); [exact IH|].
    destruct (opens f); [|exact IH].
    destruct (Nat.leb _ _); exact IH.
Qed.

End CallbackFacts.

(** ** C1, C2, C3: adding and deleting *)

Lemma added_inserts (E : Sqlite.engine) (st : state)
    (date category amount : string) :
  status_label (win (add_expense E st date category amount)) = added ->
  exists x,
    db (add_expense E st date category amount)
    = insert (db st) date category x.
Proof.
  intros Hs.
  destruct (add_expense_cases E st date category amount)
    as [(_ & H & _)|[(_ & _ & H & _)|[(_ & _ & _ & H & _)
        |(_ & _ & _ & _ & x & _ & _ & Hdb)]]];
    try (cbv zeta in H; rewrite H in Hs; discriminate).
  exists x. exact Hdb.
Qed.

Lemma first_id_after_reset (E : Sqlite.engine) (st : state)
    (date category amount : string) :
  expenses (db st) = [] -> sqlite_sequence (db st) = None ->
  status_label (win (add_expense E st date category amount)) = added ->
  exists e,
    expenses (db (add_expense E st date category amount)) = [e] /\ id e = 1.
Proof.
  intros Hrows Hseq Hs.
  destruct (added_inserts E st date category amount Hs) as (x & ->).
  unfold insert; simpl. rewrite Hrows; simpl.
  eexists. split; [reflexivity|]. simpl.
  apply next_rowid_fresh_store; assumption.
Qed.

(** C2: a delete that empties the table, and every delete_all, resets the
    id sequence, so that the next expense added gets id 1; a delete that
    leaves rows keeps the sequence, and the next expense added gets an id
    above every id the table held before the delete. *)
Theorem id_sequence_reset (E : Sqlite.engine) (st : state) :
  reachable E st ->
  (forall selected_items,
     let st' := delete_expense E st selected_items in
     expenses (db st') = [] ->
     sqlite_sequence (db st') = None
     /\ forall date category amount,
          status_label (win (add_expense E st' date category amount)) = added ->
          exists e,
            expenses (db (add_expense E st' date category amount)) = [e]
            /\ id e = 1)
  /\ (let st' := delete_all_expenses E st in
      expenses (db st') = [] /\ sqlite_sequence (db st') = None
      /\ forall date category amount,
           status_label (win (add_expense E st' date category amount)) = added ->
           exists e,
             expenses (db (add_expense E st' date category amount)) = [e]
             /\ id e = 1)
  /\ (forall selected_items,
        let st' := delete_expense E st selected_items in
        expenses (db st') <> [] ->
        sqlite_sequence (db st') = sqlite_sequence (db st)
        /\ forall date category amount,
             status_label (win (add_expense E st' date category amount)) = added ->
             exists e,
               expenses (db (add_expense E st' date category amount))
               = expenses (db st') ++ [e]
               /\ forall old, In old (expenses (db st)) -> id old < id e).
Proof.
  intros Hreach. pose proof (reachable_ok E st Hreach) as Hok.
  split; [|split].
  - intros sel st' Hempty.
    pose proof (delete_expense_ok E st sel Hok) as (_ & _ & Hreset).
    fold st' in Hreset. specialize (Hreset Hempty).
    split; [exact Hreset|]. intros d c a.
    apply first_id_after_reset; assumption.
  - cbv zeta. repeat split. intros d c a.
    apply first_id_after_reset; reflexivity.
  - intros sel st' Hrows.
    assert (Hseq : sqlite_sequence (db st') = sqlite_sequence (db st)).
    { subst st'. rewrite delete_expense_db in *.
      destruct sel as [|i sel]; [reflexivity|].
      cbv zeta in *. simpl in *.
      destruct (filter _ (expenses (db st))); [contradiction|reflexivity]. }
    split; [exact Hseq|]. intros d c a Hs.
    destruct (added_inserts E st' d c a Hs) as (x & ->).
    unfold insert; simpl. eexists. split; [reflexivity|]. simpl.
    intros old Hold.
    destruct Hok as (_ & (_ & Hbound) & _).
    rewrite Forall_forall in Hbound.
    destruct (Hbound old Hold) as (_ & s & Hs' & Hle).
    unfold next_rowid. rewrite Hseq, Hs'. lia.
Qed.

Lemma id_sequence_reset_witness :
  reachable Sqlite.in_order three_expenses
  /\ (exists e,
        expenses
          (db (add_expense Sqlite.in_order
                 (delete_expense Sqlite.in_order three_expenses [1; 2; 3])
                 "2024-03-01" "Food" "5"))
        = [e]
        /\ id e = 1)
  /\ (exists e,
        expenses
          (db (add_expense Sqlite.in_order
                 (delete_expense Sqlite.in_order three_expenses [3])
                 "2024-03-01" "Food" "5"))
        = expenses (db (delete_expense Sqlite.in_order three_expenses [3]))
          ++ [e]
        /\ forall old, In old (expenses (db three_expenses)) -> id old < id e).
Proof.
  assert (H : reachable Sqlite.in_order three_expenses)
    by (unfold three_expenses; repeat apply reach_add; apply reach_new).
  split; [exact H|].
  destruct (id_sequence_reset Sqlite.in_order three_expenses H)
    as (Hempty & _ & Hkeep).
  split.
  - apply (Hempty [1; 2; 3]); reflexivity.
  - apply (Hkeep [3]); [discriminate|reflexivity].
Defined.

(** The id of a deleted last row is not given out again while rows remain. *)
Example id_after_deleting_last_row :
  map id
    (expenses
       (db (add_expense Sqlite.in_order
              (delete_expense Sqlite.in_order three_expenses [3])
              "2024-03-01" "Food" "5")))
  = [1; 2; 4].
Proof. reflexivity. Qed.

Lemma is_selected_In (selected_items : list Z) (e : Expense) :
  is_selected selected_items e = true <-> In (id e) selected_items.
Proof.
  unfold is_selected. rewrite existsb_exists. split.
  - intros (i & Hi & Heq). apply Z.eqb_eq in Heq. congruence.
  - intros Hi. exists (id e). split; [exact Hi|apply Z.eqb_refl].
Qed.

Lemma filter_split_length {A : Type} (f : A -> bool) (l : list A) :
  List.length l
  = (List.length (filter (fun x => negb (f x)) l)
     + List.length (filter f l))%nat.
Proof.
  induction l as [|x l IH]; simpl; [reflexivity|].
  destruct (f x); simpl; lia.
Qed.

(** C3, as the code has it: a delete removes exactly the stored expenses
    whose id is selected and keeps the others as they were and in their
    order; the number of rows that go is the number of stored expenses with
    a selected id; ids that are not stored change neither the rows nor,
    while rows remain, the sequence; with a selection the callback ends
    with the text "Selected expenses deleted successfully!" whatever it
    removed, without one it only asks for a selection: it gives no count. *)
Theorem delete_expense_exact (E : Sqlite.engine) (st : state)
    (selected_items : list Z) :
  let st' := delete_expense E st selected_items in
  (forall e, In e (expenses (db st'))
             <-> In e (expenses (db st)) /\ ~ In (id e) selected_items)
  /\ expenses (db st')
     = filter (fun e => negb (is_selected selected_items e))
              (expenses (db st))
  /\ List.length (expenses (db st))
     = (List.length (expenses (db st'))
        + List.length (filter (is_selected selected_items)
                              (expenses (db st))))%nat
  /\ ((forall e, In e (expenses (db st)) -> ~ In (id e) selected_items) ->
      expenses (db st') = expenses (db st)
      /\ (expenses (db st) <> [] -> db st' = db st))
  /\ (selected_items <> [] ->
      status_label (win st') = "Selected expenses deleted successfully!")
  /\ (selected_items = [] ->
      st' = with_status st "Please select an expense to delete!").
Proof.
  intros st'. subst st'.
  pose proof (delete_expense_rows E st selected_items) as Hrows.
  split; [|split; [|split; [|split; [|split]]]].
  - intros e. rewrite Hrows, filter_In, negb_true_iff.
    rewrite <- is_selected_In.
    destruct (is_selected selected_items e); intuition congruence.
  - exact Hrows.
  - rewrite Hrows. apply filter_split_length.
  - intros Hnone.
    assert (Hsame : filter (fun e => negb (is_selected selected_items e))
                           (expenses (db st)) = expenses (db st)).
    { apply forallb_filter_id. apply forallb_forall. intros e He.
      apply negb_true_iff.
      destruct (is_selected selected_items e) eqn:Hsel; [|reflexivity].
      apply is_selected_In in Hsel. exfalso. exact (Hnone e He Hsel). }
    split; [rewrite Hrows; exact Hsame|].
    intros Hne. rewrite delete_expense_db.
    destruct selected_items as [|i sel]; [reflexivity|].
    cbv zeta. rewrite Hsame.
    destruct (db st) as [rows s]; simpl in *.
    destruct rows; [contradiction|reflexivity].
  - unfold delete_expense.
    destruct selected_items as [|i sel]; [intros H; contradiction H; reflexivity|].
    intros _. cbv zeta. destruct (Nat.eqb _ 0); reflexivity.
  - intros ->. reflexivity.
Qed.

(** C3 as stated fails: with the first line of the list selected, and with
    the first two, the callback ends with the same text, having removed one
    row and two: no count of deleted expenses comes back. *)
Lemma delete_reports_no_count :
  map id (expenses_tree (win three_expenses)) = [1; 2; 3]
  /\ status_label (win (delete_expense Sqlite.in_order three_expenses [1]))
     = status_label (win (delete_expense Sqlite.in_order three_expenses [1; 2]))
  /\ List.length
       (expenses (db (delete_expense Sqlite.in_order three_expenses [1])))
     = 2%nat
  /\ List.length
       (expenses (db (delete_expense Sqlite.in_order three_expenses [1; 2])))
     = 1%nat.
Proof. repeat split. Qed.

(** C1 fails on the code: [validate_date] takes a date written without the
    leading zeros, which is no YYYY-MM-DD text, and [add_expense] stores it. *)
Theorem add_expense_takes_unpadded_date :
  let st' := add_expense Sqlite.in_order first_start "2024-1-5" "Food" "10" in
  is_iso_date "2024-1-5" = false
  /\ status_label (win st') = added
  /\ expenses (db st')
     = [{| id := 1; date := "2024-1-5"; category := "Food";
           amount := 10 # 1 |}].
Proof. repeat split. Qed.

(** ** Dates in the form YYYY-MM-DD *)

Lemma digit_range (c : ascii) :
  Text.is_digit c = true -> 0 <= Text.digit_val c <= 9.
Proof.
  unfold Text.is_digit, Text.in_range, Text.digit_val.
  rewrite andb_true_iff, !N.leb_le. lia.
Qed.

Lemma digit_char_val (c : ascii) :
  Text.is_digit c = true -> Text.digit_char (Text.digit_val c) = c.
Proof.
  unfold Text.is_digit, Text.in_range, Text.digit_char, Text.digit_val.
  rewrite andb_true_iff, !N.leb_le. intros [Hlo _].
  replace (48 + Z.to_N (Z.of_N (Text.code c) - 48))%N with (Text.code c) by lia.
  apply ascii_N_embedding.
Qed.

Lemma last_digit (q v : Z) :
  0 <= v <= 9 -> (10 * q + v) mod 10 = v /\ (10 * q + v) / 10 = q.
Proof.
  intros Hv. split.
  - symmetry. apply Z.mod_unique_pos with (q := q); lia.
  - symmetry. apply Z.div_unique_pos with (r := v); lia.
Qed.

Lemma zero_padded_2 (a b : ascii) :
  Text.is_digit a = true -> Text.is_digit b = true ->
  Text.zero_padded 2 (10 * Text.digit_val a + Text.digit_val b) = [a; b].
Proof.
  intros Ha Hb. pose proof (digit_range a Ha). pose proof (digit_range b Hb).
  cbn [Text.zero_padded List.app].
  destruct (last_digit (Text.digit_val a) (Text.digit_val b)) as [-> ->]; [lia|].
  destruct (last_digit 0 (Text.digit_val a)) as [Hm _]; [lia|].
  rewrite Z.mul_0_r, Z.add_0_l in Hm. rewrite Hm.
  rewrite !digit_char_val by assumption. reflexivity.
Qed.

Lemma zero_padded_4 (a b c d : ascii) :
  Text.is_digit a = true -> Text.is_digit b = true ->
  Text.is_digit c = true -> Text.is_digit d = true ->
  Text.zero_padded 4
    (1000 * Text.digit_val a + 100 * Text.digit_val b
     + 10 * Text.digit_val c + Text.digit_val d)
  = [a; b; c; d].
Proof.
  intros Ha Hb Hc Hd.
  pose proof (digit_range a Ha). pose proof (digit_range b Hb).
  pose proof (digit_range c Hc). pose proof (digit_range d Hd).
  set (va := Text.digit_val a) in *. set (vb := Text.digit_val b) in *.
  set (vc := Text.digit_val c) in *. set (vd := Text.digit_val d) in *.
  cbn [Text.zero_padded List.app].
  replace (1000 * va + 100 * vb + 10 * vc + vd)
    with (10 * (100 * va + 10 * vb + vc) + vd) by ring.
  destruct (last_digit (100 * va + 10 * vb + vc) vd) as [-> ->]; [lia|].
  replace (100 * va + 10 * vb + vc) with (10 * (10 * va + vb) + vc) by ring.
  destruct (last_digit (10 * va + vb) vc) as [-> ->]; [lia|].
  destruct (last_digit va vb) as [-> ->]; [lia|].
  destruct (last_digit 0 va) as [Hm _]; [lia|].
  rewrite Z.mul_0_r, Z.add_0_l in Hm. rewrite Hm.
  subst va vb vc vd.
  rewrite !digit_char_val by assumption. reflexivity.
Qed.

Lemma days_in_month_le_31 (y m : Z) : Strptime.days_in_month y m <= 31.
Proof.
  unfold Strptime.days_in_month.
  destruct (m =? 2); [destruct (Strptime.is_leap y); lia|].
  destruct ((m =? 4) || (m =? 6) || (m =? 9) || (m =? 11)); lia.
Qed.

Lemma is_char_eq (k : N) (c : ascii) :
  Text.is_char k c = true -> c = ascii_of_N k.
Proof.
  unfold Text.is_char. rewrite N.eqb_eq. intros <-.
  symmetry. apply ascii_N_embedding.
Qed.

(** For a date in the form YYYY-MM-DD, [strftime('%Y-%m', date)] is its
    first seven characters. *)
Lemma iso_month_prefix (text : string) :
  is_iso_date text = true ->
  Sqlite.strftime_Ym text = Some (substring 0 7 text).
Proof.
  unfold is_iso_date, Sqlite.strftime_Ym, Text.chars.
  rewrite <- (string_of_list_ascii_of_string text) at 3.
  destruct (list_ascii_of_string text)
    as [|y1 [|y2 [|y3 [|y4 [|h1 [|m1 [|m2 [|h2 [|d1 [|d2 [|]]]]]]]]]]];
    try discriminate.
  rewrite !andb_true_iff.
  intros ((((((((((Hy1 & Hy2) & Hy3) & Hy4) & Hh1) & Hm1) & Hm2) & Hh2)
            & Hd1) & Hd2) & Hcal).
  unfold Strptime.is_calendar_date in Hcal.
  rewrite !andb_true_iff in Hcal.
  destruct Hcal as (((((_ & _) & Hmlo) & Hmhi) & Hdlo) & Hdhi).
  unfold Sqlite.parseYyyyMmDd, Sqlite.ranged. cbv zeta.
  rewrite Hy1, Hy2, Hy3, Hy4, Hh1, Hh2, Hm1, Hm2, Hd1, Hd2, Hmlo, Hmhi, Hdlo.
  cbn [andb].
  assert (Hd31 : (10 * Text.digit_val d1 + Text.digit_val d2 <=? 31) = true).
  { apply Z.leb_le. apply Z.leb_le in Hdhi.
    eapply Z.le_trans; [exact Hdhi|apply days_in_month_le_31]. }
  rewrite Hd31. cbv iota beta.
  rewrite zero_padded_4, zero_padded_2 by assumption.
  apply is_char_eq in Hh1. subst h1. reflexivity.
Qed.

Lemma in_range_true (lo hi : N) (c : ascii) :
  (lo <= Text.code c <= hi)%N -> Text.in_range lo hi c = true.
Proof.
  intros [H1 H2]. unfold Text.in_range.
  apply andb_true_iff. split; apply N.leb_le; assumption.
Qed.

Lemma in_range_bounds (lo hi : N) (c : ascii) :
  Text.in_range lo hi c = true -> (lo <= Text.code c <= hi)%N.
Proof.
  unfold Text.in_range. rewrite andb_true_iff, !N.leb_le. tauto.
Qed.

Lemma is_char_true (k : N) (c : ascii) :
  Text.code c = k -> Text.is_char k c = true.
Proof. intros H. unfold Text.is_char. apply N.eqb_eq, H. Qed.

Lemma is_char_false (k : N) (c : ascii) :
  Text.code c <> k -> Text.is_char k c = false.
Proof. intros H. unfold Text.is_char. apply N.eqb_neq, H. Qed.

(** Two digits that spell a month match the month of the format. *)
Lemma re_m_padded (a b : ascii) (r : list ascii) :
  Text.is_digit a = true -> Text.is_digit b = true ->
  1 <= 10 * Text.digit_val a + Text.digit_val b <= 12 ->
  exists rest,
    Strptime.re_m (a :: b :: r)
    = (10 * Text.digit_val a + Text.digit_val b, r) :: rest.
Proof.
  intros Ha Hb Hv.
  pose proof (in_range_bounds _ _ _ Ha) as Hca.
  pose proof (in_range_bounds _ _ _ Hb) as Hcb.
  unfold Text.digit_val in Hv.
  unfold Strptime.re_m, Strptime.two. rewrite Ha.
  assert (Hcase : Text.code a = 49%N \/ Text.code a = 48%N) by lia.
  destruct Hcase as [H1|H0].
  - rewrite (is_char_true 49 a H1), (in_range_true 48 50 b) by lia.
    simpl. eexists. reflexivity.
  - rewrite (is_char_false 49 a), (is_char_true 48 a H0),
      (in_range_true 49 57 b) by lia.
    simpl. eexists. reflexivity.
Qed.

(** Two digits that spell a day match the day of the format. *)
Lemma re_d_padded (a b : ascii) (r : list ascii) :
  Text.is_digit a = true -> Text.is_digit b = true ->
  1 <= 10 * Text.digit_val a + Text.digit_val b <= 31 ->
  exists rest,
    Strptime.re_d (a :: b :: r)
    = (10 * Text.digit_val a + Text.digit_val b, r) :: rest.
Proof.
  intros Ha Hb Hv.
  pose proof (in_range_bounds _ _ _ Ha) as Hca.
  pose proof (in_range_bounds _ _ _ Hb) as Hcb.
  unfold Text.digit_val in Hv.
  unfold Strptime.re_d, Strptime.two. rewrite Ha.
  assert (Hcase : Text.code a = 51%N
                  \/ (49 <= Text.code a <= 50)%N \/ Text.code a = 48%N) by lia.
  destruct Hcase as [H3|[H12|H0]].
  - rewrite (is_char_true 51 a H3), (in_range_true 48 49 b) by lia.
    simpl. eexists. reflexivity.
  - rewrite (is_char_false 51 a), (in_range_true 49 50 a), Hb by lia.
    simpl. eexists. reflexivity.
  - rewrite (is_char_false 51 a) by lia.
    assert (Hno : Text.in_range 49 50 a = false).
    { unfold Text.in_range. apply andb_false_iff. left. apply N.leb_gt. lia. }
    rewrite Hno, (is_char_true 48 a H0), (in_range_true 49 57 b) by lia.
    simpl. eexists. reflexivity.
Qed.

(** Every date in the form YYYY-MM-DD passes [validate_date]. *)
Lemma iso_date_accepted (text : string) :
  is_iso_date text = true -> validate_date text = true.
Proof.
  unfold is_iso_date, validate_date, Strptime.strptime, Text.chars.
  destruct (list_ascii_of_string text)
    as [|y1 [|y2 [|y3 [|y4 [|h1 [|m1 [|m2 [|h2 [|d1 [|d2 [|]]]]]]]]]]];
    try discriminate.
  rewrite !andb_true_iff.
  intros ((((((((((Hy1 & Hy2) & Hy3) & Hy4) & Hh1) & Hm1) & Hm2) & Hh2)
            & Hd1) & Hd2) & Hcal).
  pose proof Hcal as Hcal'.
  unfold Strptime.is_calendar_date in Hcal'.
  rewrite !andb_true_iff, !Z.leb_le in Hcal'.
  destruct Hcal' as (((((_ & _) & Hmlo) & Hmhi) & Hdlo) & Hdhi).
  pose proof (days_in_month_le_31
                (1000 * Text.digit_val y1 + 100 * Text.digit_val y2
                 + 10 * Text.digit_val y3 + Text.digit_val y4)
                (10 * Text.digit_val m1 + Text.digit_val m2)) as H31.
  destruct (re_m_padded m1 m2 [h2; d1; d2] Hm1 Hm2) as (rm & Hrm); [lia|].
  destruct (re_d_padded d1 d2 [] Hd1 Hd2) as (rd & Hrd); [lia|].
  unfold Strptime.format_regex, Strptime.and_then, Strptime.re_Y,
    Strptime.re_lit.
  rewrite Hy1, Hy2, Hy3, Hy4. cbn [andb flat_map fst snd List.app].
  rewrite Hh1. cbn [flat_map fst snd List.app].
  rewrite Hrm. cbn [flat_map fst snd List.app].
  rewrite Hh2. cbn [flat_map fst snd List.app].
  rewrite Hrd. cbn [flat_map fst snd List.app].
  rewrite Hcal. reflexivity.
Qed.

(** ** C5 and C8: the monthly and the category totals *)

Section Totals.

Variable E : Sqlite.engine.

Lemma keyed_filter {K : Type} (key : Expense -> K) (p : K -> bool)
    (rows : list Expense) :
  map snd (filter (fun r : K * Q => p (fst r))
                  (map (fun e => (key e, amount e)) rows))
  = map amount (filter (fun e => p (key e)) rows).
Proof.
  induction rows as [|e rows IH]; simpl; [reflexivity|].
  destruct (p (key e)); simpl; rewrite IH; reflexivity.
Qed.

Lemma keyed_keys {K : Type} (key : Expense -> K) (rows : list Expense) :
  map fst (map (fun e => (key e, amount e)) rows) = map key rows.
Proof. rewrite map_map. reflexivity. Qed.

(** The totals of a GROUP BY query add up to the total of the table. *)
Lemma grouped_total {K : Type} (cmp : K -> K -> comparison)
    (cmp_eq : forall a b, cmp a b = Eq <-> a = b)
    (key : Expense -> K) (d : database) :
  (Qsum (map snd
           (Sqlite.group_sum cmp
              (map (fun e => (key e, amount e))
                   (Sqlite.emit E (expenses d)))))
   == total (expenses d))%Q.
Proof.
  rewrite (group_sum_total cmp cmp_eq).
  rewrite map_map. simpl. apply (emit_map_sum E amount).
Qed.

(** The part of a GROUP BY result whose keys satisfy [p] sums to what the
    stored expenses with such keys sum to. *)
Lemma grouped_filter_total {K : Type} (cmp : K -> K -> comparison)
    (cmp_eq : forall a b, cmp a b = Eq <-> a = b)
    (key : Expense -> K) (p : K -> bool) (d : database) :
  (Qsum (map snd
           (filter (fun r : K * Q => p (fst r))
              (Sqlite.group_sum cmp
                 (map (fun e => (key e, amount e))
                      (Sqlite.emit E (expenses d))))))
   == total (filter (fun e => p (key e)) (expenses d)))%Q.
Proof.
  unfold Sqlite.group_sum.
  rewrite (group_filter_sum cmp cmp_eq p).
  change (Qsum (map snd (filter (fun r : K * Q => p (fst r)) [])))
    with 0%Q.
  rewrite keyed_filter, Qplus_0_l.
  apply (emit_filter_sum E amount).
Qed.

End Totals.

(** *** Over any arithmetic *)


Lemma of_category_key (c : string) (e : Expense) :
  of_category c e = Sqlite.same_key Sqlite.memcmp c (category e).
Proof.
  unfold of_category, Sqlite.same_key.
  destruct (String.eqb_spec (category e) c) as [->|Hne].
  - assert (H : Sqlite.memcmp c c = Eq) by (apply memcmp_eq; reflexivity).
    rewrite H. reflexivity.
  - destruct (Sqlite.memcmp (category e) c) eqn:Hc; try reflexivity.
    apply memcmp_eq in Hc. contradiction.
Qed.

(** A GROUP BY over the table, whatever the key and the arithmetic: the
    keys come without repetition, every row falls under one key and no
    other, and the total of a key is SUM over the rows of that key in the
    order scanned.  Where sums add exactly the totals add up to the total
    of the rows. *)
Section SplitByKey.

Context {K : Type} (cmp : K -> K -> comparison).
Hypothesis cmp_eq : forall a b, cmp a b = Eq <-> a = b.
Hypothesis cmp_flip : forall a b, cmp a b = CompOpp (cmp b a).
Hypothesis cmp_trans :
  forall a b c, cmp a b = Lt -> cmp b c = Lt -> cmp a c = Lt.
Variable key : Expense -> K.
Variable under : K -> Expense -> bool.
Hypothesis under_key : forall k e, under k e = Sqlite.same_key cmp k (key e).
Variable A : arithmetic.

Local Abbreviation keyed :=
  (fun rows : list Expense => map (fun e => (key e, Over.stored A e)) rows).

Lemma keyed_group (rows : list Expense) (k : K) :
  sql_sum A (Sqlite.group cmp (keyed rows) k) = sum_where A (under k) rows.
Proof.
  unfold sum_where, Sqlite.group. f_equal.
  induction rows as [|e rows IH]; simpl; [reflexivity|].
  rewrite under_key.
  destruct (Sqlite.same_key cmp k (key e)); simpl; rewrite IH; reflexivity.
Qed.


End SplitByKey.



(** Binary64 does not: 0.1, 0.2 and 0.3 added in this order and in the
    opposite order give two numbers. *)
Lemma binary64_does_not_add_exactly : ~ adds_exactly binary64.
Proof.
  intros (plus & Hcomm & Hassoc & Hzero & Hpy & _).
  pose proof (fold_plus_perm plus (of_decimal binary64 0%Q) Hcomm Hassoc Hzero
                _ _ (Permutation_rev
                       [Binary64.nearest (1 # 10); Binary64.nearest (2 # 10);
                        Binary64.nearest (3 # 10)])) as H.
  cbv beta in H. rewrite <- !Hpy in H. vm_compute in H. discriminate H.
Qed.









(** The example of the specification, in rowid and key order. *)
Example monthly_totals_example :
  generate_spending_chart Sqlite.in_order (db three_expenses)
  = ([Some "2024-01"; Some "2024-02"], [90 # 1; 10 # 1])
  /\ generate_category_pie_chart Sqlite.in_order (db three_expenses)
     = (["Dining Out"; "Food"], [40 # 1; 60 # 1]).
Proof. split; reflexivity. Qed.

(** ** C4, C9, C10: the recommendations *)

Section Insights.

Variable E : Sqlite.engine.

Lemma gt_compat (a a' b b' : Q) :
  (a == a')%Q -> (b == b')%Q -> gt a b = gt a' b'.
Proof.
  intros Ha Hb.
  destruct (gt a b) eqn:H1, (gt a' b') eqn:H2; try reflexivity.
  - apply gt_spec in H1. rewrite Ha, Hb in H1. apply gt_spec in H1. congruence.
  - apply gt_spec in H2. rewrite <- Ha, <- Hb in H2. apply gt_spec in H2.
    congruence.
Qed.

Lemma total_spent_is_total (d : database) :
  (amount_sum (category_rows E d) == total (expenses d))%Q.
Proof. apply (grouped_total E Sqlite.memcmp memcmp_eq). Qed.

Lemma containing_is_spent_on (pat : string) (d : database) :
  (amount_sum (containing pat (category_rows E d)) == spent_on pat d)%Q.
Proof.
  apply (grouped_filter_total E Sqlite.memcmp memcmp_eq category
           (Text.contains_nocase pat)).
Qed.

Lemma dining_test (d : database) :
  gt (amount_sum (containing "Dining Out" (category_rows E d)))
     (amount_sum (category_rows E d) * (2 # 10)) = true
  <-> dining_rule d.
Proof.
  rewrite (gt_compat _ (spent_on "Dining Out" d)
             _ (total (expenses d) * (2 # 10))).
  - apply gt_spec.
  - apply containing_is_spent_on.
  - rewrite total_spent_is_total. reflexivity.
Qed.

Lemma entertainment_test (d : database) :
  gt (amount_sum (containing "Entertainment" (category_rows E d)))
     (amount_sum (category_rows E d) * (15 # 100)) = true
  <-> entertainment_rule d.
Proof.
  rewrite (gt_compat _ (spent_on "Entertainment" d)
             _ (total (expenses d) * (15 # 100))).
  - apply gt_spec.
  - apply containing_is_spent_on.
  - rewrite total_spent_is_total. reflexivity.
Qed.

(** The four lists [get_spending_insights] can return. *)
Lemma insights_cases (d : database) :
  (dining_rule d /\ entertainment_rule d
   /\ get_spending_insights E d = [dining_advice; entertainment_advice])
  \/ (dining_rule d /\ ~ entertainment_rule d
      /\ get_spending_insights E d = [dining_advice])
  \/ (~ dining_rule d /\ entertainment_rule d
      /\ get_spending_insights E d = [entertainment_advice])
  \/ (~ dining_rule d /\ ~ entertainment_rule d
      /\ get_spending_insights E d = [doing_great]).
Proof.
  pose proof (dining_test d) as Hd.
  pose proof (entertainment_test d) as He.
  unfold get_spending_insights.
  destruct (gt (amount_sum (containing "Dining Out" (category_rows E d))) _);
    destruct (gt (amount_sum (containing "Entertainment" (category_rows E d))) _);
    simpl.
  - left. intuition.
  - right; left. intuition discriminate.
  - right; right; left. intuition discriminate.
  - right; right; right. intuition discriminate.
Qed.

End Insights.

(** The recommendations over any arithmetic are decided by the two
    comparisons. *)
Lemma insights_by_comparisons (A : arithmetic) (E : Sqlite.engine)
    (d : database) :
  let df := Over.category_rows A E d in
  let total_spent := Over.amount_sum A df in
  let dining :=
    greater A (Over.amount_sum A (Over.containing A "Dining Out" df))
      (times A total_spent (of_decimal A (2 # 10))) in
  let entertainment :=
    greater A (Over.amount_sum A (Over.containing A "Entertainment" df))
      (times A total_spent (of_decimal A (15 # 100))) in
  Over.get_spending_insights A E d
  = match dining, entertainment with
    | true, true => [dining_advice; entertainment_advice]
    | true, false => [dining_advice]
    | false, true => [entertainment_advice]
    | false, false => [doing_great]
    end.
Proof.
  cbv zeta. unfold Over.get_spending_insights.
  destruct (greater A (Over.amount_sum A (Over.containing A "Dining Out" _)) _);
    destruct (greater A (Over.amount_sum A
                           (Over.containing A "Entertainment" _)) _);
    reflexivity.
Qed.

(** The categories of the frame that contain [pat] add up to the sum, as
    pandas adds it, of what SUM gave for each of them. *)
Lemma containing_sum (A : arithmetic) (E : Sqlite.engine) (d : database)
    (p : string -> bool) :
  map snd (filter (fun r => p (fst r)) (Over.category_rows A E d))
  = map (fun c => sum_where A (of_category c) (select_all E d))
        (filter p (fst (Over.generate_category_pie_chart A E d))).
Proof.
  unfold Over.generate_category_pie_chart, Over.category_rows, select_all.
  cbv zeta. cbn [fst].
  rewrite group_by_filter, group_by_keys.
  apply map_ext. intros c.
  apply (keyed_group Sqlite.memcmp category of_category of_category_key).
Qed.

(** C4, as the code has it, whatever its arithmetic: the categories come
    one per name in ascending order; the dining advice is given exactly
    when what the categories that contain Dining Out (in any case of the
    letters) add up to, all of them together, is greater than the total of
    all categories times 0.2; the entertainment advice exactly when the
    categories that contain Entertainment add up to more than the total
    times 0.15; given both, the dining advice comes first.  Sums, products
    and comparisons are those of the program. *)
Theorem advice_by_combined_amount (A : arithmetic) (E : Sqlite.engine)
    (d : database) :
  ascii_categories d ->
  exists categories,
    StronglySorted (fun a b => lex_le a b /\ a <> b) categories
    /\ (forall c, In c categories
                  <-> exists e, In e (expenses d) /\ category e = c)
    /\ let spent := fun names =>
         pd_sum A (map (fun c => sum_where A (of_category c) (select_all E d))
                       names) in
       let total_spent := spent categories in
       let dining_spent :=
         spent (filter (Text.contains_nocase "Dining Out") categories) in
       let entertainment_spent :=
         spent (filter (Text.contains_nocase "Entertainment") categories) in
       (In dining_advice (Over.get_spending_insights A E d)
        <-> greater A dining_spent
              (times A total_spent (of_decimal A (2 # 10))) = true)
       /\ (In entertainment_advice (Over.get_spending_insights A E d)
           <-> greater A entertainment_spent
                 (times A total_spent (of_decimal A (15 # 100))) = true)
       /\ (In dining_advice (Over.get_spending_insights A E d) ->
           In entertainment_advice (Over.get_spending_insights A E d) ->
           Over.get_spending_insights A E d
           = [dining_advice; entertainment_advice]).
Proof.
  intros _.
  exists (fst (Over.generate_category_pie_chart A E d)).
  split; [|split].
  - unfold Over.generate_category_pie_chart, Over.category_rows.
    cbv zeta. cbn [fst]. rewrite group_by_keys.
    assert (Hs : Sorted (fun a b => Sqlite.memcmp a b = Lt)
                   (Sqlite.distinct_keys Sqlite.memcmp
                      (map (fun e => (category e, Over.stored A e))
                           (Sqlite.emit E (expenses d)))))
      by (apply distinct_keys_sorted; exact memcmp_flip).
    apply Sorted_StronglySorted in Hs; [|intros a b c; apply memcmp_trans].
    eapply strongly_sorted_impl; [|exact Hs].
    intros a b. apply memcmp_lt_lex.
  - intros c.
    unfold Over.generate_category_pie_chart, Over.category_rows.
    cbv zeta. cbn [fst]. rewrite group_by_keys.
    rewrite (distinct_keys_In Sqlite.memcmp memcmp_eq), map_map. simpl.
    rewrite in_map_iff. split.
    + intros (e & Hc & He). exists e. split; [apply emit_In in He; exact He|exact Hc].
    + intros (e & He & Hc). exists e. split; [exact Hc|apply emit_In, He].
  - cbv zeta.
    pose proof (insights_by_comparisons A E d) as Hcases. cbv zeta in Hcases.
    unfold Over.amount_sum, Over.containing in Hcases.
    rewrite !containing_sum in Hcases.
    replace (map snd (Over.category_rows A E d))
      with (map (fun c => sum_where A (of_category c) (select_all E d))
                (fst (Over.generate_category_pie_chart A E d)))
      in Hcases.
    2:{ rewrite <- (filter_all (Over.category_rows A E d)) at 1.
        rewrite (containing_sum A E d (fun _ => true)), filter_all.
        reflexivity. }
    rewrite Hcases.
    destruct (greater A _ _); destruct (greater A _ _);
      (split; [split; settle|split; [split; settle|settle]]).
Qed.

Lemma advice_by_combined_amount_witness :
  ascii_categories (db two_dining_categories)
  /\ exists categories,
       (forall c, In c categories
                  <-> exists e, In e (expenses (db two_dining_categories))
                                /\ category e = c)
       /\ (In dining_advice
             (Over.get_spending_insights binary64 Sqlite.in_order
                (db two_dining_categories))
           <-> Binary64.gt
                 (Binary64.sum
                    (map (fun c => sum_where binary64 (of_category c)
                                     (select_all Sqlite.in_order
                                        (db two_dining_categories)))
                         (filter (Text.contains_nocase "Dining Out") categories)))
                 (Binary64.mul
                    (Binary64.sum
                       (map (fun c => sum_where binary64 (of_category c)
                                        (select_all Sqlite.in_order
                                           (db two_dining_categories)))
                            categories))
                    (Binary64.nearest (2 # 10))) = true).
Proof.
  assert (H : ascii_categories (db two_dining_categories))
    by (repeat constructor).
  split; [exact H|].
  destruct (advice_by_combined_amount binary64 Sqlite.in_order
              (db two_dining_categories) H)
    as (categories & _ & Hin & Hdining & _).
  exists categories. split; [exact Hin|exact Hdining].
Defined.

(** *** The callbacks in exact arithmetic

    The recommendations computed on rationals, as [get_spending_insights]
    above has them, are the recommendations over the arithmetic [rationals]. *)

Lemma Q2Qc_plus (a b : Q) : Qcplus (Q2Qc a) (Q2Qc b) = Q2Qc (a + b).
Proof.
  unfold Qcplus. apply Q2Qc_eq_iff. simpl. rewrite !Qred_correct. reflexivity.
Qed.

Lemma Q2Qc_mult (a b : Q) : Qcmult (Q2Qc a) (Q2Qc b) = Q2Qc (a * b).
Proof.
  unfold Qcmult. apply Q2Qc_eq_iff. simpl. rewrite !Qred_correct. reflexivity.
Qed.

Lemma rational_sum (l : list Q) :
  fold_left Qcplus (map Q2Qc l) (Q2Qc 0) = Q2Qc (Qsum l).
Proof.
  unfold Qsum. generalize 0%Q as acc.
  induction l as [|x l IH]; intros acc; simpl; [reflexivity|].
  rewrite Q2Qc_plus. apply IH.
Qed.

Lemma rational_greater (a b : Q) : greater rationals (Q2Qc a) (Q2Qc b) = gt a b.
Proof.
  simpl. unfold Qccompare. simpl. rewrite <- Qred_compare.
  destruct (gt a b) eqn:Hgt.
  - apply gt_spec in Hgt. apply Qgt_alt in Hgt. rewrite Hgt. reflexivity.
  - destruct (a ?= b)%Q eqn:Hc; try reflexivity.
    apply Qgt_alt, gt_spec in Hc. congruence.
Qed.

Lemma rational_spent (E : Sqlite.engine) (d : database) (p : string -> bool) :
  pd_sum rationals
    (map snd (filter (fun r => p (fst r)) (Over.category_rows rationals E d)))
  = Q2Qc (total (filter (fun e => p (category e)) (expenses d))).
Proof.
  unfold Over.category_rows. rewrite group_by_filter.
  change (pd_sum rationals) with (fun l : list Qc => fold_left Qcplus l (Q2Qc 0)).
  change (sql_sum rationals) with (fun l : list Qc => fold_left Qcplus l (Q2Qc 0)).
  cbv beta.
  rewrite <- (map_map (Sqlite.group Sqlite.memcmp _)
                      (fun l : list Qc => fold_left Qcplus l (Q2Qc 0))).
  rewrite (fold_plus_concat Qcplus (Q2Qc 0)
             Qcplus_comm Qcplus_assoc Qcplus_0_l).
  rewrite (fold_plus_perm Qcplus (Q2Qc 0) Qcplus_comm Qcplus_assoc Qcplus_0_l
             _ _ (groups_perm_filter Sqlite.memcmp memcmp_eq memcmp_flip
                    memcmp_trans p _)).
  match goal with
  | |- fold_left _ ?values _ = _ =>
      assert (Heq : values
                    = map Q2Qc
                        (map amount
                           (filter (fun e => p (category e))
                                   (Sqlite.emit E (expenses d)))))
  end.
  { induction (Sqlite.emit E (expenses d)) as [|e l IH];
      cbn [map filter fst snd]; [reflexivity|].
    destruct (p (category e)); cbn [map snd]; [|exact IH].
    f_equal. exact IH. }
  rewrite Heq, rational_sum. apply Q2Qc_eq_iff.
  apply (emit_filter_sum E amount).
Qed.

Lemma rational_insights (E : Sqlite.engine) (d : database) :
  Over.get_spending_insights rationals E d = get_spending_insights E d.
Proof.
  rewrite insights_by_comparisons. cbv zeta.
  unfold Over.amount_sum, Over.containing.
  rewrite !rational_spent.
  rewrite <- (filter_all (Over.category_rows rationals E d)).
  rewrite (rational_spent E d (fun _ => true)), filter_all.
  change (times rationals) with Qcmult. change (of_decimal rationals) with Q2Qc.
  rewrite !Q2Qc_mult, !rational_greater.
  unfold get_spending_insights.
  rewrite (gt_compat (amount_sum (containing "Dining Out" (category_rows E d)))
             (spent_on "Dining Out" d)
             (amount_sum (category_rows E d) * (2 # 10))
             (total (expenses d) * (2 # 10)))
    by (try apply containing_is_spent_on;
        rewrite total_spent_is_total; reflexivity).
  rewrite (gt_compat
             (amount_sum (containing "Entertainment" (category_rows E d)))
             (spent_on "Entertainment" d)
             (amount_sum (category_rows E d) * (15 # 100))
             (total (expenses d) * (15 # 100)))
    by (try apply containing_is_spent_on;
        rewrite total_spent_is_total; reflexivity).
  unfold spent_on.
  destruct (gt _ _); destruct (gt _ _); reflexivity.
Qed.

(** C4 as stated fails: no single category that contains Dining Out is
    above 20% of the spending, and the dining advice is given all the same,
    because the code adds up all such categories. *)
Lemma dining_rule_counterexample :
  let d := db two_dining_categories in
  In dining_advice (get_spending_insights Sqlite.in_order d)
  /\ forall c t,
       In (c, t) (category_rows Sqlite.in_order d) ->
       Text.contains_nocase "Dining Out" c = true ->
       gt t (amount_sum (category_rows Sqlite.in_order d) * (2 # 10)) = false.
Proof.
  cbv zeta. split; [left; reflexivity|].
  intros c t Hin Hc.
  vm_compute in Hin.
  destruct Hin as [H|[H|[H|[]]]]; inversion H; subst; clear H;
    solve [reflexivity | vm_compute in Hc; discriminate Hc].
Qed.

(** C9: when the total spending is 0, which on the stores the program
    reaches happens only with no expense, the recommendations are the
    affirming message and nothing else.  The comparisons multiply the total,
    they never divide by it. *)
Theorem no_spending_no_advice (E : Sqlite.engine) (st : state) :
  reachable E st ->
  (amount_sum (category_rows E (db st)) == 0)%Q ->
  expenses (db st) = []
  /\ get_spending_insights E (db st) = [doing_great].
Proof.
  intros Hreach Hzero.
  pose proof (reachable_ok E st Hreach) as (Hent & _ & _).
  rewrite total_spent_is_total in Hzero.
  assert (Hempty : expenses (db st) = []).
  { destruct (expenses (db st)) as [|e rows] eqn:Hrows; [reflexivity|].
    exfalso.
    assert (Hpos : (0 < total (e :: rows))%Q).
    { unfold total. apply (Qsum_pos (amount e) (map amount rows)).
      change (Forall (fun x => (0 < x)%Q) (map amount (e :: rows))).
      apply Forall_map.
      eapply Forall_impl; [|exact Hent].
      intros a (_ & _ & Ha). exact Ha. }
    rewrite Hzero in Hpos. exact (Qlt_irrefl 0 Hpos). }
  split; [exact Hempty|].
  unfold get_spending_insights, category_rows.
  rewrite Hempty, emit_nil. reflexivity.
Qed.

Lemma no_spending_no_advice_witness :
  reachable Sqlite.in_order first_start
  /\ get_spending_insights Sqlite.in_order (db first_start) = [doing_great].
Proof.
  assert (H : reachable Sqlite.in_order first_start) by apply reach_new.
  split; [exact H|].
  apply (no_spending_no_advice Sqlite.in_order first_start H).
  reflexivity.
Defined.

(** C10: the recommendations are never empty, and the affirming message is
    among them exactly when neither rule has fired, that is, when neither
    advice is among them. *)
Theorem insights_never_empty (E : Sqlite.engine) (d : database) :
  get_spending_insights E d <> []
  /\ (In doing_great (get_spending_insights E d)
      <-> ~ In dining_advice (get_spending_insights E d)
          /\ ~ In entertainment_advice (get_spending_insights E d)).
Proof.
  destruct (insights_cases E d)
    as [(Hd & He & ->)|[(Hd & He & ->)|[(Hd & He & ->)|(Hd & He & ->)]]];
    (split; [discriminate|split; settle]).
Qed.

(** ** C7: the report over a range of dates *)

Lemma between_lex (x lo hi : string) :
  Sqlite.between x lo hi = true <-> lex_le lo x /\ lex_le x hi.
Proof.
  unfold Sqlite.between. rewrite andb_true_iff, !text_le_lex. tauto.
Qed.

Lemma perm_filter {A : Type} (p : A -> bool) (l l' : list A) :
  Permutation l l' -> Permutation (filter p l) (filter p l').
Proof.
  induction 1 as [|x l1 l2 _ IH|x y l0|l1 l2 l3 _ IH1 _ IH2]; simpl.
  - constructor.
  - destruct (p x); [constructor|]; exact IH.
  - destruct (p x), (p y); try apply Permutation_refl. constructor.
  - eapply Permutation_trans; eassumption.
Qed.

(** C7: the report lists exactly the expenses of the table whose date lies
    between the two dates in the lexicographic order of texts, both ends
    included, each as often as the table holds it, and totals them; the
    table is left as it was. *)
Theorem report_is_inclusive_range (E : Sqlite.engine) (st : state)
    (d1 d2 : string) :
  let st' := generate_report E st d1 d2 in
  db st' = db st
  /\ (forall e, In e (expenses_tree (win st'))
                <-> In e (select_all E (db st))
                    /\ lex_le d1 (date e) /\ lex_le (date e) d2)
  /\ Permutation (expenses_tree (win st'))
       (filter (fun e => Sqlite.between (date e) d1 d2)
               (select_all E (db st)))
  /\ total_label (win st')
     = TotalFromTo d1 d2 (total (expenses_tree (win st'))).
Proof.
  cbv zeta. unfold generate_report, select_all; simpl.
  split; [reflexivity|]. split; [|split; [|reflexivity]].
  - intros e. rewrite !emit_In, filter_In, between_lex. tauto.
  - eapply Permutation_trans; [apply Sqlite.emit_perm|].
    apply perm_filter, Permutation_sym, Sqlite.emit_perm.
Qed.

(** ** C6: the export *)

(** C6, as the code has it: nothing happens without a file name; a file
    that does not open is left as it was and the error is reported; a file
    that opens is emptied and takes the header and then one row per expense
    in the order of the query, each with id, date, category and amount;
    when the medium refuses a row, the error is reported and the file keeps
    the rows written so far, which are not the whole export. *)
Theorem export_writes_header_and_rows (E : Sqlite.engine) (st : state)
    (file_path : string) (f : destination) :
  let lines := header :: map row_of (select_all E (db st)) in
  let st' := fst (export_to_csv E st file_path f) in
  let f' := snd (export_to_csv E st file_path f) in
  db st' = db st
  /\ (file_path = "" -> st' = st /\ f' = f)
  /\ (file_path <> "" -> opens f = false ->
      status_label (win st') = export_failed (oserror f) /\ f' = f)
  /\ (file_path <> "" -> opens f = true ->
      (List.length lines <= room f)%nat ->
      status_label (win st') = exported /\ holds f' = lines)
  /\ (file_path <> "" -> opens f = true ->
      (room f < List.length lines)%nat ->
      status_label (win st') = export_failed (oserror f)
      /\ holds f' = firstn (room f) lines
      /\ List.length (holds f') = room f
      /\ holds f' <> lines).
Proof.
  cbv zeta. unfold export_to_csv.
  destruct (String.eqb_spec file_path "") as [Hp|Hp].
  - cbn [fst snd].
    split; [reflexivity|]. split; [intros _; split; reflexivity|].
    split; [|split]; intros Hq; contradiction.
  - destruct (opens f) eqn:Ho.
    + destruct (Nat.leb_spec
                  (List.length (header :: map row_of (select_all E (db st))))
                  (room f)) as [Hle|Hgt]; cbn [fst snd with_status db win
                                               status_label holds].
      * split; [reflexivity|]. split; [intros Hq; contradiction|].
        split; [intros _ Hf; discriminate|].
        split; [|intros _ _ Hlt; exfalso; lia].
        intros _ _ _. split; [reflexivity|].
        apply firstn_all2. exact Hle.
      * split; [reflexivity|]. split; [intros Hq; contradiction|].
        split; [intros _ Hf; discriminate|].
        split; [intros _ _ Hle; exfalso; lia|].
        intros _ _ _. split; [reflexivity|]. split; [reflexivity|].
        split; [apply firstn_length_le; lia|].
        intros Heq. apply (f_equal (@List.length csv_row)) in Heq.
        rewrite firstn_length_le in Heq by lia. lia.
    + cbn [fst snd with_status db win status_label].
      split; [reflexivity|]. split; [intros Hq; contradiction|].
      split; [intros _ _; split; reflexivity|].
      split; intros _ Hf; discriminate.
Qed.

(** C6 as stated fails: the medium takes the header and refuses the first
    row; the export reports the error, and the file, which held an earlier
    export, is left with the header alone: neither the whole export nor
    what it held before. *)
Lemma export_leaves_partial_file :
  let result := export_to_csv Sqlite.in_order three_expenses "out.csv"
                  nearly_full in
  status_label (win (fst result)) = export_failed (oserror nearly_full)
  /\ holds (snd result) = [header]
  /\ holds (snd result) <> holds nearly_full
  /\ holds (snd result)
     <> header :: map row_of (select_all Sqlite.in_order (db three_expenses)).
Proof. cbv zeta. repeat split; discriminate. Qed.

(** * Further properties of the callbacks *)

(** ** Deleting in steps, deleting everything *)

Lemma is_selected_app (s1 s2 : list Z) (e : Expense) :
  is_selected (s1 ++ s2) e = is_selected s1 e || is_selected s2 e.
Proof. unfold is_selected. apply existsb_app. Qed.

Lemma unselected_twice (s1 s2 : list Z) (rows : list Expense) :
  filter (fun e => negb (is_selected s2 e))
         (filter (fun e => negb (is_selected s1 e)) rows)
  = filter (fun e => negb (is_selected (s1 ++ s2) e)) rows.
Proof.
  rewrite filter_filter. apply filter_ext. intros e.
  rewrite is_selected_app, negb_orb. reflexivity.
Qed.

(** Two deletes in a row leave the table as one delete of both selections
    does, rows and id sequence alike. *)
Theorem delete_twice_is_delete_of_both (E : Sqlite.engine) (st : state)
    (s1 s2 : list Z) :
  db (delete_expense E (delete_expense E st s1) s2)
  = db (delete_expense E st (s1 ++ s2)).
Proof.
  rewrite (delete_expense_db E (delete_expense E st s1) s2).
  destruct s2 as [|j s2].
  - rewrite app_nil_r. reflexivity.
  - rewrite (delete_expense_db E st s1).
    destruct s1 as [|i s1].
    + rewrite (delete_expense_db E st ([] ++ j :: s2)). reflexivity.
    + rewrite (delete_expense_db E st ((i :: s1) ++ j :: s2)).
      cbv zeta. cbn [expenses sqlite_sequence].
      rewrite unselected_twice.
      change ((i :: s1) ++ j :: s2) with (i :: s1 ++ j :: s2).
      rewrite <- (unselected_twice (i :: s1) (j :: s2)).
      destruct (filter (fun e => negb (is_selected (i :: s1) e))
                       (expenses (db st))) as [|r rows]; [reflexivity|].
      destruct (filter _ (r :: rows)); reflexivity.
Qed.

Lemma filter_none {A : Type} (f : A -> bool) (l : list A) :
  (forall x, In x l -> f x = false) -> filter f l = [].
Proof.
  induction l as [|x l IH]; intros H; simpl; [reflexivity|].
  rewrite (H x (or_introl eq_refl)). apply IH.
  intros y Hy. apply H. right. exact Hy.
Qed.

(** Selecting every stored id and deleting leaves the table as
    [delete_all_expenses] does, when there is a row to select. *)
Theorem delete_of_every_id_is_delete_all (E : Sqlite.engine) (st : state) :
  expenses (db st) <> [] ->
  db (delete_expense E st (map id (expenses (db st))))
  = db (delete_all_expenses E st).
Proof.
  intros Hne. rewrite delete_expense_db.
  destruct (map id (expenses (db st))) as [|i sel] eqn:Hsel.
  - destruct (expenses (db st)); [contradiction|discriminate].
  - cbv zeta.
    assert (Hnone : filter (fun e => negb (is_selected (i :: sel) e))
                           (expenses (db st)) = []).
    { apply filter_none. intros e He. rewrite <- Hsel.
      apply negb_false_iff, is_selected_In, in_map, He. }
    rewrite Hnone. reflexivity.
Qed.

Lemma delete_of_every_id_is_delete_all_witness :
  expenses (db three_expenses) <> []
  /\ db (delete_expense Sqlite.in_order three_expenses [1; 2; 3])
     = db (delete_all_expenses Sqlite.in_order three_expenses).
Proof.
  assert (H : expenses (db three_expenses) <> []) by discriminate.
  split; [exact H|].
  exact (delete_of_every_id_is_delete_all Sqlite.in_order three_expenses H).
Defined.

(** ** Adding: every outcome, and taking the new row back *)

(** [add_expense] ends in one of four ways.  The first field that fails,
    in the order date, category, amount, is named in the status and neither
    the table nor the list nor the total changes.  Otherwise one row is
    appended, made of the date and the category as typed and the amount
    read by [float], under an id above every stored id, which the sequence
    remembers; the list and the total are refreshed from the table. *)
Theorem add_expense_outcomes (E : Sqlite.engine) (st : state)
    (date category amount : string) :
  let st' := add_expense E st date category amount in
  (status_label (win st') = invalid_date /\ validate_date date = false
   /\ db st' = db st
   /\ expenses_tree (win st') = expenses_tree (win st)
   /\ total_label (win st') = total_label (win st))
  \/ (status_label (win st') = empty_category
      /\ validate_date date = true /\ category = ""
      /\ db st' = db st
      /\ expenses_tree (win st') = expenses_tree (win st)
      /\ total_label (win st') = total_label (win st))
  \/ (status_label (win st') = invalid_amount
      /\ validate_date date = true /\ category <> ""
      /\ validate_amount amount = false
      /\ db st' = db st
      /\ expenses_tree (win st') = expenses_tree (win st)
      /\ total_label (win st') = total_label (win st))
  \/ (status_label (win st') = added
      /\ validate_date date = true /\ category <> ""
      /\ exists x n,
           PyFloat.float amount = Some x /\ (0 < x)%Q
           /\ 0 < n /\ (forall e, In e (expenses (db st)) -> id e < n)
           /\ expenses (db st')
              = expenses (db st)
                ++ [{| id := n; date := date; category := category;
                       amount := x |}]
           /\ sqlite_sequence (db st') = Some n
           /\ expenses_tree (win st') = select_all E (db st')
           /\ total_label (win st')
              = TotalExpense (total (select_all E (db st')))).
Proof.
  cbv zeta. unfold add_expense.
  destruct (validate_date date) eqn:Hd; simpl negb; cbv iota;
    [|left; repeat split].
  right.
  destruct (String.eqb_spec category "") as [Hc|Hc];
    [left; repeat split; assumption|].
  right.
  destruct (validate_amount amount) eqn:Ha; simpl negb; cbv iota;
    [|left; repeat split; assumption].
  right.
  destruct (validate_amount_float amount Ha) as (x & Hx & Hpos).
  rewrite Hx. split; [reflexivity|]. split; [reflexivity|].
  split; [exact Hc|].
  exists x, (next_rowid (db st)).
  repeat split; try assumption.
  - apply next_rowid_positive.
  - intros e He. apply next_rowid_above, He.
Qed.

(** Deleting the row an add has just stored gives back the rows there were
    before.  The id it had is not free again: the sequence keeps it while
    other rows remain, and is reset when none does. *)
Theorem add_then_delete_restores_rows (E : Sqlite.engine) (st : state)
    (date category amount : string) :
  status_label (win (add_expense E st date category amount)) = added ->
  exists e,
    expenses (db (add_expense E st date category amount))
    = expenses (db st) ++ [e]
    /\ expenses
         (db (delete_expense E (add_expense E st date category amount)
                [id e]))
       = expenses (db st)
    /\ sqlite_sequence
         (db (delete_expense E (add_expense E st date category amount)
                [id e]))
       = match expenses (db st) with
         | [] => None
         | _ :: _ => Some (id e)
         end.
Proof.
  intros Hs.
  destruct (added_inserts E st date category amount Hs) as (x & Hdb).
  set (e := {| id := next_rowid (db st); date := date;
               category := category; amount := x |}).
  exists e.
  assert (Hrows : expenses (db (add_expense E st date category amount))
                  = expenses (db st) ++ [e]) by (rewrite Hdb; reflexivity).
  assert (Hback : filter (fun r => negb (is_selected [id e] r))
                         (expenses (db st) ++ [e]) = expenses (db st)).
  { rewrite filter_app.
    assert (Hlast : filter (fun r => negb (is_selected [id e] r)) [e] = []).
    { simpl. unfold is_selected. simpl. rewrite Z.eqb_refl. reflexivity. }
    rewrite Hlast, app_nil_r.
    apply forallb_filter_id, forallb_forall. intros r Hr.
    apply negb_true_iff.
    destruct (is_selected [id e] r) eqn:Hsel; [|reflexivity].
    apply is_selected_In in Hsel. destruct Hsel as [Heq|[]].
    pose proof (next_rowid_above (db st) r Hr) as Hlt.
    simpl in Heq. lia. }
  split; [exact Hrows|]. split.
  - rewrite delete_expense_rows, Hrows. exact Hback.
  - rewrite delete_expense_db. cbv zeta. cbn [sqlite_sequence].
    rewrite Hrows, Hback, Hdb.
    destruct (expenses (db st)); reflexivity.
Qed.

Lemma add_then_delete_restores_rows_witness :
  status_label
    (win (add_expense Sqlite.in_order three_expenses "2024-03-01" "Food" "5"))
  = added
  /\ exists e,
       expenses
         (db (delete_expense Sqlite.in_order
                (add_expense Sqlite.in_order three_expenses
                   "2024-03-01" "Food" "5")
                [id e]))
       = expenses (db three_expenses).
Proof.
  assert (H : status_label
                (win (add_expense Sqlite.in_order three_expenses
                        "2024-03-01" "Food" "5")) = added) by reflexivity.
  split; [exact H|].
  destruct (add_then_delete_restores_rows Sqlite.in_order three_expenses
              "2024-03-01" "Food" "5" H) as (e & _ & Hback & _).
  exists e. exact Hback.
Defined.

(** ** What holds in every state the program reaches *)

(** In every state the program reaches, the stored ids are positive,
    pairwise different and increasing in storage order, none above the
    remembered sequence, which exists exactly when a row does; and every
    stored expense has a date [validate_date] takes, a category that is not
    empty and a positive amount. *)
Theorem reachable_store_invariant (E : Sqlite.engine) (st : state) :
  reachable E st ->
  NoDup (map id (expenses (db st)))
  /\ StronglySorted Z.lt (map id (expenses (db st)))
  /\ (forall e, In e (expenses (db st)) ->
        1 <= id e
        /\ (exists s, sqlite_sequence (db st) = Some s /\ id e <= s)
        /\ validate_date (date e) = true
        /\ category e <> ""
        /\ (0 < amount e)%Q)
  /\ (expenses (db st) = [] <-> sqlite_sequence (db st) = None).
Proof.
  intros Hreach.
  destruct (reachable_ok E st Hreach) as (Hent & (Hsorted & Hseq) & Hreset).
  rewrite Forall_forall in Hent, Hseq.
  split; [|split; [exact Hsorted|split]].
  - clear -Hsorted. induction Hsorted as [|x l _ IH Hall]; constructor.
    + intros Hin. rewrite Forall_forall in Hall.
      specialize (Hall x Hin). lia.
    + exact IH.
  - intros e He. destruct (Hseq e He) as (Hpos & Hs).
    destruct (Hent e He) as (Hd & Hc & Ha).
    repeat split; try assumption. lia.
  - split; [exact Hreset|].
    intros Hnone. destruct (expenses (db st)) as [|e rows]; [reflexivity|].
    destruct (Hseq e (or_introl eq_refl)) as (_ & s & Hs & _).
    congruence.
Qed.

Lemma reachable_store_invariant_witness :
  reachable Sqlite.in_order three_expenses
  /\ NoDup (map id (expenses (db three_expenses))).
Proof.
  assert (H : reachable Sqlite.in_order three_expenses)
    by (unfold three_expenses; repeat apply reach_add; apply reach_new).
  split; [exact H|].
  exact (proj1 (reachable_store_invariant Sqlite.in_order three_expenses H)).
Defined.

(** The list after [add_expense]: as it was, with the table, or refreshed. *)
Lemma add_expense_list (E : Sqlite.engine) (st : state)
    (date category amount : string) :
  let st' := add_expense E st date category amount in
  (db st' = db st /\ expenses_tree (win st') = expenses_tree (win st))
  \/ expenses_tree (win st') = select_all E (db st').
Proof.
  cbv zeta. unfold add_expense.
  destruct (negb (validate_date date)); [left; split; reflexivity|].
  destruct (String.eqb category ""); [left; split; reflexivity|].
  destruct (negb (validate_amount amount)); [left; split; reflexivity|].
  destruct (PyFloat.float amount); [right|left; split]; reflexivity.
Qed.

(** In every state the program reaches, each line of the list is a row of
    the table: a selection made in the list names stored expenses only. *)
Theorem listed_expenses_are_stored (E : Sqlite.engine) (st : state) :
  reachable E st ->
  forall e, In e (expenses_tree (win st)) -> In e (expenses (db st)).
Proof.
  induction 1 as [|st _ IH|st d c a _ IH|st sel _ IH|st _ IH|st _ IH
                  |st d1 d2 _ IH|st path f _ IH|st _ IH]; intros e.
  - simpl. unfold select_all. apply emit_In.
  - simpl. unfold select_all. apply emit_In.
  - destruct (add_expense_list E st d c a) as [(-> & ->)| ->];
      [apply IH|].
    unfold select_all. apply emit_In.
  - unfold delete_expense. destruct sel as [|i sel]; [apply IH|].
    cbv zeta. destruct (Nat.eqb _ 0); simpl; unfold select_all; apply emit_In.
  - simpl. unfold select_all. apply emit_In.
  - simpl. unfold select_all. apply emit_In.
  - simpl. rewrite emit_In, filter_In. tauto.
  - unfold export_to_csv.
    destruct (String.eqb path ""); [apply IH|].
    destruct (opens f); [|apply IH].
    destruct (Nat.leb _ _); apply IH.
  - apply IH.
Qed.

Lemma listed_expenses_are_stored_witness :
  reachable Sqlite.in_order
    (generate_report Sqlite.in_order three_expenses "2024-01-01" "2024-01-31")
  /\ forall e,
       In e (expenses_tree
               (win (generate_report Sqlite.in_order three_expenses
                       "2024-01-01" "2024-01-31"))) ->
       In e (expenses (db three_expenses)).
Proof.
  assert (H : reachable Sqlite.in_order
                (generate_report Sqlite.in_order three_expenses
                   "2024-01-01" "2024-01-31"))
    by (apply reach_report; unfold three_expenses;
        repeat apply reach_add; apply reach_new).
  split; [exact H|].
  exact (listed_expenses_are_stored Sqlite.in_order _ H).
Defined.

(** ** The recommendations and the category chart *)

(** The category query yields one row per category that occurs, the
    categories told apart character by character (so Food and food are two),
    each with the sum of the amounts stored under exactly that category. *)
Theorem category_totals_by_exact_name (E : Sqlite.engine) (d : database) :
  generate_category_pie_chart E d
  = (map fst (category_rows E d), map snd (category_rows E d))
  /\ NoDup (fst (generate_category_pie_chart E d))
  /\ (forall c, In c (fst (generate_category_pie_chart E d))
                <-> exists e, In e (expenses d) /\ category e = c)
  /\ (forall c t, In (c, t) (category_rows E d) ->
        (t == total (filter (fun e => String.eqb (category e) c)
                            (expenses d)))%Q).
Proof.
  set (keyed := map (fun e => (category e, amount e))
                    (Sqlite.emit E (expenses d))).
  assert (Hsorted : Sorted (fun a b => Sqlite.memcmp a b = Lt)
                      (map fst (Sqlite.group_sum Sqlite.memcmp keyed))).
  { apply (group_sorted Sqlite.memcmp memcmp_flip). constructor. }
  assert (Hnd : NoDup (map fst (Sqlite.group_sum Sqlite.memcmp keyed))).
  { eapply sorted_keys_nodup; [| |exact Hsorted].
    - exact memcmp_eq.
    - exact memcmp_trans. }
  split; [reflexivity|].
  unfold generate_category_pie_chart. cbv zeta. cbn [fst].
  unfold category_rows. fold keyed.
  split; [|split].
  - exact Hnd.
  - intros c. unfold Sqlite.group_sum.
    rewrite (group_keys Sqlite.memcmp memcmp_eq).
    unfold keyed. rewrite keyed_keys, in_map_iff. split.
    + intros [(e & Hk & He)|[]].
      apply emit_In in He. exists e. split; [exact He|exact Hk].
    + intros (e & He & <-). left. exists e.
      split; [reflexivity|apply emit_In, He].
  - intros c t Hin.
    pose proof (nodup_group_total Sqlite.memcmp memcmp_eq _ c t Hnd Hin)
      as Ht.
    rewrite <- Ht. clear Ht.
    unfold Sqlite.group_sum.
    rewrite (group_filter_sum Sqlite.memcmp memcmp_eq).
    change (Qsum (map snd (filter
              (fun r : string * Q =>
                 Sqlite.same_key Sqlite.memcmp c (fst r)) [])))
      with 0%Q.
    unfold keyed. rewrite keyed_filter, Qplus_0_l.
    rewrite (emit_filter_sum E amount).
    unfold total. apply Qsum_perm, Permutation_map.
    rewrite (filter_ext
               (fun e => Sqlite.same_key Sqlite.memcmp c (category e))
               (fun e => String.eqb (category e) c)); [reflexivity|].
    intros e. unfold Sqlite.same_key.
    destruct (String.eqb_spec (category e) c) as [->|Hne].
    + assert (Heq : Sqlite.memcmp c c = Eq) by (apply memcmp_eq; reflexivity).
      rewrite Heq. reflexivity.
    + destruct (Sqlite.memcmp (category e) c) eqn:Hc; try reflexivity.
      apply memcmp_eq in Hc. contradiction.
Qed.

(** ** Dates without their leading zeros, in the chart and in the report *)

(** Of the dates [validate_date] takes, SQLite reads those in the form
    YYYY-MM-DD and no other. *)
Lemma strftime_reads_iso_only (text : string) :
  validate_date text = true ->
  Sqlite.strftime_Ym text <> None ->
  is_iso_date text = true.
Proof.
  unfold validate_date, Strptime.strptime, Sqlite.strftime_Ym, is_iso_date,
    Text.chars.
  destruct (list_ascii_of_string text)
    as [|y1 [|y2 [|y3 [|y4 [|h1 [|m1 [|m2 [|h2 [|d1 [|d2 [|]]]]]]]]]]];
    intros Hv Hs; try (exfalso; apply Hs; reflexivity).
  unfold Sqlite.parseYyyyMmDd in Hs.
  destruct (Text.is_digit y1 && Text.is_digit y2 && Text.is_digit y3
            && Text.is_digit y4 && Text.is_char Text.dash h1
            && Text.is_char Text.dash h2) eqn:Hshape;
    [|exfalso; apply Hs; reflexivity].
  rewrite !andb_true_iff in Hshape.
  destruct Hshape as (((((Hy1 & Hy2) & Hy3) & Hy4) & Hh1) & Hh2).
  unfold Sqlite.ranged in Hs. cbv zeta in Hs.
  destruct (Text.is_digit m1 && Text.is_digit m2
            && (1 <=? 10 * Text.digit_val m1 + Text.digit_val m2)
            && (10 * Text.digit_val m1 + Text.digit_val m2 <=? 12)) eqn:Hm;
    [|exfalso; apply Hs; reflexivity].
  destruct (Text.is_digit d1 && Text.is_digit d2
            && (1 <=? 10 * Text.digit_val d1 + Text.digit_val d2)
            && (10 * Text.digit_val d1 + Text.digit_val d2 <=? 31)) eqn:Hd;
    [|exfalso; apply Hs; reflexivity].
  clear Hs.
  rewrite !andb_true_iff, !Z.leb_le in Hm, Hd.
  destruct Hm as (((Hm1 & Hm2) & Hmlo) & Hmhi).
  destruct Hd as (((Hd1 & Hd2) & Hdlo) & Hdhi).
  destruct (re_m_padded m1 m2 [h2; d1; d2] Hm1 Hm2) as (rm & Hrm); [lia|].
  destruct (re_d_padded d1 d2 [] Hd1 Hd2) as (rd & Hrd); [lia|].
  revert Hv.
  unfold Strptime.format_regex, Strptime.and_then, Strptime.re_Y,
    Strptime.re_lit.
  rewrite Hy1, Hy2, Hy3, Hy4. cbn [andb flat_map fst snd List.app].
  rewrite Hh1. cbn [flat_map fst snd List.app].
  rewrite Hrm. cbn [flat_map fst snd List.app].
  rewrite Hh2. cbn [flat_map fst snd List.app].
  rewrite Hrd. cbn [flat_map fst snd List.app].
  rewrite ?Hh1, ?Hh2, ?Hm1, ?Hm2, ?Hd1, ?Hd2. cbn [andb].
  destruct (Strptime.is_calendar_date _ _ _); [reflexivity|discriminate].
Qed.

Lemma month_key_of_reached (text : string) :
  validate_date text = true ->
  Sqlite.same_key Sqlite.nullable_cmp None (Sqlite.strftime_Ym text)
  = negb (is_iso_date text).
Proof.
  intros Hv. unfold Sqlite.same_key.
  destruct (is_iso_date text) eqn:Hiso.
  - rewrite (iso_month_prefix text Hiso). reflexivity.
  - destruct (Sqlite.strftime_Ym text) eqn:Hs; [|reflexivity].
    assert (Hiso' : is_iso_date text = true).
    { apply strftime_reads_iso_only; [exact Hv|]. rewrite Hs. discriminate. }
    congruence.
Qed.

(** In every state the program reaches, the monthly chart has a bar
    without a month (the key NULL) exactly when some stored date lacks the
    form YYYY-MM-DD, and that bar adds up the amounts of all such rows. *)
Theorem null_month_collects_unpadded_dates (E : Sqlite.engine) (st : state) :
  reachable E st ->
  (In None (fst (generate_spending_chart E (db st)))
   <-> exists e, In e (expenses (db st)) /\ is_iso_date (date e) = false)
  /\ (forall t, In (None, t) (monthly_rows E (db st)) ->
        (t == total (filter (fun e => negb (is_iso_date (date e)))
                            (expenses (db st))))%Q).
Proof.
  intros Hreach.
  destruct (reachable_ok E st Hreach) as (Hent & _ & _).
  rewrite Forall_forall in Hent.
  assert (Hvalid : forall e, In e (expenses (db st)) ->
                     validate_date (date e) = true)
    by (intros e He; apply (Hent e He)).
  set (keyed := map (fun e => (Sqlite.strftime_Ym (date e), amount e))
                    (Sqlite.emit E (expenses (db st)))).
  assert (Hkey : forall e, In e (expenses (db st)) ->
            (Sqlite.strftime_Ym (date e) = None
             <-> is_iso_date (date e) = false)).
  { intros e He. pose proof (month_key_of_reached _ (Hvalid e He)) as Hk.
    unfold Sqlite.same_key in Hk.
    destruct (Sqlite.strftime_Ym (date e)), (is_iso_date (date e));
      simpl in Hk; split; intros H; congruence. }
  split.
  - unfold generate_spending_chart. cbv zeta. cbn [fst].
    unfold monthly_rows. fold keyed. unfold Sqlite.group_sum.
    rewrite (group_keys Sqlite.nullable_cmp nullable_cmp_eq).
    unfold keyed. rewrite keyed_keys, in_map_iff. split.
    + intros [(e & Hnone & He)|[]].
      apply emit_In in He. exists e. split; [exact He|].
      apply Hkey; assumption.
    + intros (e & He & Hiso). left. exists e.
      split; [apply Hkey; assumption|apply emit_In, He].
  - intros t Hin. unfold monthly_rows in Hin. fold keyed in Hin.
    assert (Hnd : NoDup (map fst (Sqlite.group_sum Sqlite.nullable_cmp keyed))).
    { eapply sorted_keys_nodup;
        [exact nullable_cmp_eq|exact nullable_cmp_trans|].
      apply (group_sorted Sqlite.nullable_cmp nullable_cmp_flip).
      constructor. }
    pose proof (nodup_group_total Sqlite.nullable_cmp nullable_cmp_eq
                  _ None t Hnd Hin) as Ht.
    rewrite <- Ht. clear Ht.
    unfold Sqlite.group_sum.
    rewrite (group_filter_sum Sqlite.nullable_cmp nullable_cmp_eq).
    change (Qsum (map snd (filter
              (fun r : option string * Q =>
                 Sqlite.same_key Sqlite.nullable_cmp None (fst r)) [])))
      with 0%Q.
    unfold keyed. rewrite keyed_filter, Qplus_0_l.
    rewrite (emit_filter_sum E amount).
    unfold total. apply Qsum_perm, Permutation_map.
    rewrite (filter_ext_in
               (fun e => Sqlite.same_key Sqlite.nullable_cmp None
                           (Sqlite.strftime_Ym (date e)))
               (fun e => negb (is_iso_date (date e)))); [reflexivity|].
    intros e He. apply month_key_of_reached, Hvalid, He.
Qed.

Lemma null_month_collects_unpadded_dates_witness :
  let st := add_expense Sqlite.in_order three_expenses "2024-3-9" "Food" "7" in
  reachable Sqlite.in_order st
  /\ In None (fst (generate_spending_chart Sqlite.in_order (db st))).
Proof.
  cbv zeta.
  assert (H : reachable Sqlite.in_order
                (add_expense Sqlite.in_order three_expenses
                   "2024-3-9" "Food" "7"))
    by (unfold three_expenses; repeat apply reach_add; apply reach_new).
  split; [exact H|].
  apply (proj1 (null_month_collects_unpadded_dates Sqlite.in_order _ H)).
  eexists. split; [right; right; right; left; reflexivity|reflexivity].
Defined.

Lemma text_le_cases (a b : string) :
  Sqlite.text_le a b = true <-> Sqlite.memcmp a b = Lt \/ a = b.
Proof.
  unfold Sqlite.text_le. rewrite <- memcmp_eq.
  destruct (Sqlite.memcmp a b); intuition discriminate.
Qed.

Lemma text_le_antisym (a b : string) :
  Sqlite.text_le a b = true -> Sqlite.text_le b a = true -> a = b.
Proof.
  rewrite !text_le_cases. intros [Hab|Hab] [Hba|Hba]; auto.
  rewrite memcmp_flip, Hab in Hba. discriminate.
Qed.

Lemma text_le_trans (a b c : string) :
  Sqlite.text_le a b = true -> Sqlite.text_le b c = true ->
  Sqlite.text_le a c = true.
Proof.
  rewrite !text_le_cases. intros [Hab| ->] [Hbc| ->]; auto.
  left. eapply memcmp_trans; eassumption.
Qed.

Lemma text_le_refl (a : string) : Sqlite.text_le a a = true.
Proof. apply text_le_cases. right. reflexivity. Qed.

(** The report from a date to the same date lists the expenses stored
    under exactly that text; the report between two dates given the wrong
    way round lists nothing and totals 0. *)
Theorem report_of_degenerate_range (E : Sqlite.engine) (st : state) :
  (forall d e,
     In e (expenses_tree (win (generate_report E st d d)))
     <-> In e (expenses (db st)) /\ date e = d)
  /\ (forall d1 d2,
        Sqlite.memcmp d1 d2 = Gt ->
        expenses_tree (win (generate_report E st d1 d2)) = []
        /\ total_label (win (generate_report E st d1 d2))
           = TotalFromTo d1 d2 0).
Proof.
  split.
  - intros d e. unfold generate_report; simpl.
    rewrite emit_In, filter_In. unfold Sqlite.between.
    rewrite andb_true_iff. split.
    + intros (He & Hlo & Hhi). split; [exact He|].
      apply text_le_antisym; assumption.
    + intros (He & ->). repeat split; try exact He; apply text_le_refl.
  - intros d1 d2 Hgt.
    assert (Hnone : filter (fun e => Sqlite.between (date e) d1 d2)
                           (expenses (db st)) = []).
    { apply filter_none. intros e _.
      destruct (Sqlite.between (date e) d1 d2) eqn:Hb; [|reflexivity].
      unfold Sqlite.between in Hb. apply andb_true_iff in Hb.
      destruct Hb as (Hlo & Hhi).
      pose proof (text_le_trans _ _ _ Hlo Hhi) as Hle.
      unfold Sqlite.text_le in Hle. rewrite Hgt in Hle. discriminate. }
    unfold generate_report; simpl. rewrite Hnone, emit_nil.
    split; reflexivity.
Qed.

(** ** Amounts *)

Lemma lstrip_spaces (pre l : list ascii) (c : ascii) :
  forallb Text.is_space pre = true -> Text.is_space c = false ->
  PyFloat.lstrip (pre ++ c :: l) = c :: l.
Proof.
  intros Hpre Hc. induction pre as [|p pre IH]; simpl.
  - rewrite Hc. reflexivity.
  - simpl in Hpre. apply andb_true_iff in Hpre. destruct Hpre as (Hp & Hpre).
    rewrite Hp. apply IH, Hpre.
Qed.

Lemma lstrip_snoc (l : list ascii) (c : ascii) :
  Text.is_space c = false ->
  PyFloat.lstrip (l ++ [c]) = PyFloat.lstrip l ++ [c].
Proof.
  intros Hc. induction l as [|x l IH]; simpl.
  - rewrite Hc. reflexivity.
  - destruct (Text.is_space x); [exact IH|reflexivity].
Qed.

Lemma strip_keeps_head (pre l : list ascii) (c : ascii) :
  forallb Text.is_space pre = true -> Text.is_space c = false ->
  exists l', PyFloat.strip (pre ++ c :: l) = c :: l'.
Proof.
  intros Hpre Hc. unfold PyFloat.strip.
  rewrite (lstrip_spaces pre l c Hpre Hc).
  simpl rev. rewrite (lstrip_snoc (rev l) c Hc).
  rewrite rev_app_distr. simpl. eexists. reflexivity.
Qed.

Lemma digitpart_nonneg (s : list ascii) :
  forall acc count, 0 <= acc ->
  0 <= fst (fst (PyFloat.digitpart acc count s)).
Proof.
  assert (H : forall k s, (List.length s <= k)%nat ->
                forall acc count, 0 <= acc ->
                0 <= fst (fst (PyFloat.digitpart acc count s))).
  { induction k as [|k IH]; intros [|c r] Hlen acc count Hacc;
      cbn [PyFloat.digitpart fst];
      try exact Hacc; simpl in Hlen; [lia|].
    destruct (Text.is_digit c) eqn:Hc.
    - apply IH; [lia|]. pose proof (digit_range c Hc). lia.
    - destruct (Text.is_char 95 c && negb (Nat.eqb count 0)); [|exact Hacc].
      destruct r as [|d r']; [exact Hacc|].
      destruct (Text.is_digit d) eqn:Hd; [|exact Hacc].
      apply IH; [simpl in Hlen; lia|]. pose proof (digit_range d Hd). lia. }
  intros acc count. apply (H (List.length s) s). lia.
Qed.

Lemma number_nonneg (s r : list ascii) (m k : Z) :
  PyFloat.number s = Some (m, k, r) -> 0 <= m.
Proof.
  unfold PyFloat.number.
  pose proof (digitpart_nonneg s 0 0 (Z.le_refl 0)) as Hwhole.
  destruct (PyFloat.digitpart 0 0 s) as ((whole & n) & r0). simpl in Hwhole.
  destruct r0 as [|c r1].
  - destruct (Nat.eqb n 0); [discriminate|]. intros H. inversion H. lia.
  - destruct (Text.is_char 46 c).
    + pose proof (digitpart_nonneg r1 whole 0 Hwhole) as Hm.
      destruct (PyFloat.digitpart whole 0 r1) as ((m' & k') & r2).
      simpl in Hm.
      destruct (Nat.eqb n 0 && Nat.eqb k' 0); [discriminate|].
      intros H. inversion H. lia.
    + destruct (Nat.eqb n 0); [discriminate|]. intros H. inversion H. lia.
Qed.

Lemma pow10_positive (e : Z) : (0 < PyFloat.pow10 e)%Q.
Proof.
  unfold PyFloat.pow10. destruct (0 <=? e) eqn:He.
  - apply Z.leb_le in He. unfold Qlt; simpl.
    pose proof (Z.pow_pos_nonneg 10 e). lia.
  - unfold Qlt; simpl. lia.
Qed.

(** An amount that starts, after white space, with a minus sign is never
    taken, whatever follows: what [float] reads of it is at most zero. *)
Theorem validate_amount_rejects_minus (text : string)
    (pre rest : list ascii) :
  Text.chars text = pre ++ "-"%char :: rest ->
  forallb Text.is_space pre = true ->
  validate_amount text = false.
Proof.
  intros Htext Hpre. unfold validate_amount, PyFloat.float.
  rewrite Htext.
  destruct (strip_keeps_head pre rest "-"%char Hpre eq_refl) as (l' & ->).
  change (PyFloat.sign ("-"%char :: l')) with (true, l').
  cbv iota beta.
  destruct (PyFloat.number l') as [((m & k) & r)|] eqn:Hnum; [|reflexivity].
  destruct (PyFloat.exponent r) as [(e & [|c r'])|]; try reflexivity.
  apply negb_false_iff, Qle_bool_iff.
  rewrite Qred_correct.
  apply Qle_trans with 0%Q.
  - pose proof (number_nonneg _ _ _ _ Hnum) as Hm.
    pose proof (pow10_positive (k + e)) as Hp.
    unfold Qlt in Hp. simpl in Hp.
    unfold Qle, Qmult, inject_Z. simpl Qnum. simpl Qden.
    rewrite Z.mul_0_l, Z.mul_1_r. nia.
  - unfold Qle, PyFloat.half_least_positive. simpl Qnum.
    rewrite Z.mul_0_l. lia.
Qed.

Lemma validate_amount_rejects_minus_witness :
  Text.chars " -12.50" = [" "%char] ++ "-"%char :: Text.chars "12.50"
  /\ validate_amount " -12.50" = false.
Proof.
  split; [reflexivity|].
  apply (validate_amount_rejects_minus " -12.50" [" "%char]
           (Text.chars "12.50")); reflexivity.
Defined.

(** ** The dates [validate_date] takes *)

Lemma digit_char_digit (n : Z) :
  0 <= n <= 9 ->
  Text.is_digit (Text.digit_char n) = true
  /\ Text.digit_val (Text.digit_char n) = n.
Proof.
  intros Hn.
  assert (Hcode : Text.code (Text.digit_char n) = (48 + Z.to_N n)%N).
  { unfold Text.code, Text.digit_char. apply N_ascii_embedding. lia. }
  unfold Text.is_digit, Text.in_range, Text.digit_val. rewrite Hcode.
  split; [|lia].
  apply andb_true_iff. split; apply N.leb_le; lia.
Qed.

Lemma zero_padded_2_digits (n : Z) :
  0 <= n <= 99 ->
  exists a b,
    Text.zero_padded 2 n = [a; b]
    /\ Text.is_digit a = true /\ Text.is_digit b = true
    /\ 10 * Text.digit_val a + Text.digit_val b = n.
Proof.
  intros Hn.
  exists (Text.digit_char (n / 10 mod 10)), (Text.digit_char (n mod 10)).
  assert (H1 : 0 <= n / 10 mod 10 <= 9)
    by (pose proof (Z.mod_pos_bound (n / 10) 10); lia).
  assert (H0 : 0 <= n mod 10 <= 9)
    by (pose proof (Z.mod_pos_bound n 10); lia).
  destruct (digit_char_digit _ H1) as (Ha & Hva).
  destruct (digit_char_digit _ H0) as (Hb & Hvb).
  repeat split; try assumption.
  rewrite Hva, Hvb.
  assert (Hsmall : n / 10 mod 10 = n / 10).
  { apply Z.mod_small. split; [apply Z.div_pos; lia|].
    apply Z.div_lt_upper_bound; lia. }
  rewrite Hsmall. pose proof (Z.div_mod n 10). lia.
Qed.

Lemma zero_padded_4_digits (n : Z) :
  0 <= n <= 9999 ->
  exists a b c d,
    Text.zero_padded 4 n = [a; b; c; d]
    /\ Text.is_digit a = true /\ Text.is_digit b = true
    /\ Text.is_digit c = true /\ Text.is_digit d = true
    /\ 1000 * Text.digit_val a + 100 * Text.digit_val b
       + 10 * Text.digit_val c + Text.digit_val d = n.
Proof.
  intros Hn.
  exists (Text.digit_char (n / 10 / 10 / 10 mod 10)),
         (Text.digit_char (n / 10 / 10 mod 10)),
         (Text.digit_char (n / 10 mod 10)),
         (Text.digit_char (n mod 10)).
  assert (H3 : 0 <= n / 10 / 10 / 10 mod 10 <= 9)
    by (pose proof (Z.mod_pos_bound (n / 10 / 10 / 10) 10); lia).
  assert (H2 : 0 <= n / 10 / 10 mod 10 <= 9)
    by (pose proof (Z.mod_pos_bound (n / 10 / 10) 10); lia).
  assert (H1 : 0 <= n / 10 mod 10 <= 9)
    by (pose proof (Z.mod_pos_bound (n / 10) 10); lia).
  assert (H0 : 0 <= n mod 10 <= 9)
    by (pose proof (Z.mod_pos_bound n 10); lia).
  destruct (digit_char_digit _ H3) as (Ha & Hva).
  destruct (digit_char_digit _ H2) as (Hb & Hvb).
  destruct (digit_char_digit _ H1) as (Hc & Hvc).
  destruct (digit_char_digit _ H0) as (Hd & Hvd).
  repeat split; try assumption.
  rewrite Hva, Hvb, Hvc, Hvd.
  assert (Hsmall : n / 10 / 10 / 10 mod 10 = n / 10 / 10 / 10).
  { apply Z.mod_small. split; [repeat apply Z.div_pos; lia|].
    repeat (apply Z.div_lt_upper_bound; [lia|]). lia. }
  rewrite Hsmall.
  pose proof (Z.div_mod n 10). pose proof (Z.div_mod (n / 10) 10).
  pose proof (Z.div_mod (n / 10 / 10) 10). lia.
Qed.

Lemma is_char_code (k : N) (c : ascii) :
  Text.is_char k c = true -> Text.code c = k.
Proof. unfold Text.is_char. apply N.eqb_eq. Qed.

Lemma digit_of_range (lo hi : N) (c : ascii) :
  (48 <= lo)%N -> (hi <= 57)%N -> Text.in_range lo hi c = true ->
  Text.is_digit c = true
  /\ Z.of_N lo - 48 <= Text.digit_val c <= Z.of_N hi - 48.
Proof.
  intros Hlo Hhi H. apply in_range_bounds in H.
  split; [apply in_range_true; lia|]. unfold Text.digit_val. lia.
Qed.

Lemma two_inv (f g : ascii -> bool) (s r : list ascii) (v : Z) :
  In (v, r) (Strptime.two f g s) ->
  exists a b,
    s = a :: b :: r /\ f a = true /\ g b = true
    /\ v = (if Text.is_digit a
            then 10 * Text.digit_val a + Text.digit_val b
            else Text.digit_val b).
Proof.
  unfold Strptime.two. destruct s as [|a [|b s]]; try contradiction.
  destruct (f a) eqn:Hf; [|contradiction].
  destruct (g b) eqn:Hg; [|contradiction].
  simpl. intros [H|[]]. inversion H; subst. exists a, b. auto.
Qed.

Lemma one_inv (f : ascii -> bool) (s r : list ascii) (v : Z) :
  In (v, r) (Strptime.one f s) ->
  exists a, s = a :: r /\ f a = true /\ v = Text.digit_val a.
Proof.
  unfold Strptime.one. destruct s as [|a s]; [contradiction|].
  destruct (f a) eqn:Hf; [|contradiction].
  intros [H|[]]. inversion H; subst. exists a. auto.
Qed.

(** What the month of the format matches: two digits, or one. *)
Lemma re_m_inv (s r : list ascii) (m : Z) :
  In (m, r) (Strptime.re_m s) ->
  (exists a b,
     s = a :: b :: r /\ Text.is_digit a = true /\ Text.is_digit b = true
     /\ m = 10 * Text.digit_val a + Text.digit_val b /\ 1 <= m <= 12)
  \/ (exists a,
        s = a :: r /\ Text.is_digit a = true
        /\ m = Text.digit_val a /\ 1 <= m <= 9).
Proof.
  unfold Strptime.re_m. intros H.
  apply in_app_or in H. destruct H as [H|H]; [|apply in_app_or in H;
                                               destruct H as [H|H]].
  - apply two_inv in H. destruct H as (a & b & -> & Ha & Hb & ->).
    apply is_char_code in Ha.
    destruct (digit_of_range 48 50 b) as (Hdb & Hvb); try lia; [exact Hb|].
    assert (Hda : Text.is_digit a = true) by (apply in_range_true; lia).
    rewrite Hda. left. exists a, b.
    unfold Text.digit_val in *. repeat split; try assumption; lia.
  - apply two_inv in H. destruct H as (a & b & -> & Ha & Hb & ->).
    apply is_char_code in Ha.
    destruct (digit_of_range 49 57 b) as (Hdb & Hvb); try lia; [exact Hb|].
    assert (Hda : Text.is_digit a = true) by (apply in_range_true; lia).
    rewrite Hda. left. exists a, b.
    unfold Text.digit_val in *. repeat split; try assumption; lia.
  - apply one_inv in H. destruct H as (a & -> & Ha & ->).
    destruct (digit_of_range 49 57 a) as (Hda & Hva); try lia; [exact Ha|].
    right. exists a. repeat split; try assumption; lia.
Qed.

(** What the day of the format matches: two digits, one, or a blank and
    one. *)
Lemma re_d_inv (s r : list ascii) (d : Z) :
  In (d, r) (Strptime.re_d s) ->
  (exists a b,
     s = a :: b :: r /\ Text.is_digit a = true /\ Text.is_digit b = true
     /\ d = 10 * Text.digit_val a + Text.digit_val b /\ 1 <= d <= 31)
  \/ (exists a,
        s = a :: r /\ Text.is_digit a = true
        /\ d = Text.digit_val a /\ 1 <= d <= 9)
  \/ (exists a,
        s = ascii_of_N Text.blank :: a :: r /\ Text.is_digit a = true
        /\ d = Text.digit_val a /\ 1 <= d <= 9).
Proof.
  unfold Strptime.re_d. intros H.
  apply in_app_or in H. destruct H as [H|H];
    [|apply in_app_or in H; destruct H as [H|H];
      [|apply in_app_or in H; destruct H as [H|H];
        [|apply in_app_or in H; destruct H as [H|H]]]].
  - apply two_inv in H. destruct H as (a & b & -> & Ha & Hb & ->).
    apply is_char_code in Ha.
    destruct (digit_of_range 48 49 b) as (Hdb & Hvb); try lia; [exact Hb|].
    assert (Hda : Text.is_digit a = true) by (apply in_range_true; lia).
    rewrite Hda. left. exists a, b.
    unfold Text.digit_val in *. repeat split; try assumption; lia.
  - apply two_inv in H. destruct H as (a & b & -> & Ha & Hb & ->).
    destruct (digit_of_range 49 50 a) as (Hda & Hva); try lia; [exact Ha|].
    pose proof (digit_range b Hb) as Hvb.
    rewrite Hda. left. exists a, b.
    repeat split; try assumption; lia.
  - apply two_inv in H. destruct H as (a & b & -> & Ha & Hb & ->).
    apply is_char_code in Ha.
    destruct (digit_of_range 49 57 b) as (Hdb & Hvb); try lia; [exact Hb|].
    assert (Hda : Text.is_digit a = true) by (apply in_range_true; lia).
    rewrite Hda. left. exists a, b.
    unfold Text.digit_val in *. repeat split; try assumption; lia.
  - apply one_inv in H. destruct H as (a & -> & Ha & ->).
    destruct (digit_of_range 49 57 a) as (Hda & Hva); try lia; [exact Ha|].
    right; left. exists a. repeat split; try assumption; lia.
  - apply two_inv in H. destruct H as (a & b & -> & Ha & Hb & ->).
    apply is_char_eq in Ha. subst a.
    destruct (digit_of_range 49 57 b) as (Hdb & Hvb); try lia; [exact Hb|].
    right; right. exists b.
    change (Text.is_digit (ascii_of_N Text.blank)) with false. cbv iota.
    repeat split; try assumption; lia.
Qed.

Lemma not_in_range_dash (lo hi : N) :
  (48 <= lo)%N -> Text.in_range lo hi (ascii_of_N Text.dash) = false.
Proof.
  intros H. unfold Text.in_range. apply andb_false_iff. left.
  apply N.leb_gt. change (Text.code (ascii_of_N Text.dash)) with 45%N. lia.
Qed.

(** One digit before a dash is read as the month. *)
Lemma re_m_single (a : ascii) (r : list ascii) :
  Text.is_digit a = true -> 1 <= Text.digit_val a <= 9 ->
  Strptime.re_m (a :: ascii_of_N Text.dash :: r)
  = [(Text.digit_val a, ascii_of_N Text.dash :: r)].
Proof.
  intros Ha Hv. apply in_range_bounds in Ha. unfold Text.digit_val in Hv.
  unfold Strptime.re_m, Strptime.two, Strptime.one.
  rewrite !not_in_range_dash by lia. rewrite !andb_false_r.
  rewrite (in_range_true 49 57 a) by lia. reflexivity.
Qed.

(** One digit at the end is read as the day. *)
Lemma re_d_single (a : ascii) :
  Text.is_digit a = true -> 1 <= Text.digit_val a <= 9 ->
  Strptime.re_d [a] = [(Text.digit_val a, [])].
Proof.
  intros Ha Hv. apply in_range_bounds in Ha. unfold Text.digit_val in Hv.
  unfold Strptime.re_d, Strptime.two, Strptime.one.
  rewrite (in_range_true 49 57 a) by lia. reflexivity.
Qed.

(** A blank and one digit at the end are read as the day. *)
Lemma re_d_blank (a : ascii) :
  Text.is_digit a = true -> 1 <= Text.digit_val a <= 9 ->
  Strptime.re_d [ascii_of_N Text.blank; a] = [(Text.digit_val a, [])].
Proof.
  intros Ha Hv. apply in_range_bounds in Ha. unfold Text.digit_val in Hv.
  unfold Strptime.re_d, Strptime.two, Strptime.one.
  change (Text.is_char 51 (ascii_of_N Text.blank)) with false.
  change (Text.in_range 49 50 (ascii_of_N Text.blank)) with false.
  change (Text.is_char 48 (ascii_of_N Text.blank)) with false.
  change (Text.in_range 49 57 (ascii_of_N Text.blank)) with false.
  change (Text.is_char Text.blank (ascii_of_N Text.blank)) with true.
  change (Text.is_digit (ascii_of_N Text.blank)) with false.
  rewrite (in_range_true 49 57 a) by lia. reflexivity.
Qed.

Lemma re_Y_inv (s r : list ascii) (y : Z) :
  In (y, r) (Strptime.re_Y s) ->
  exists a b c d,
    s = a :: b :: c :: d :: r
    /\ Text.is_digit a = true /\ Text.is_digit b = true
    /\ Text.is_digit c = true /\ Text.is_digit d = true
    /\ y = 1000 * Text.digit_val a + 100 * Text.digit_val b
           + 10 * Text.digit_val c + Text.digit_val d.
Proof.
  unfold Strptime.re_Y. destruct s as [|a [|b [|c [|d s]]]]; try contradiction.
  destruct (Text.is_digit a && Text.is_digit b && Text.is_digit c
            && Text.is_digit d) eqn:H; [|contradiction].
  rewrite !andb_true_iff in H. destruct H as (((Ha & Hb) & Hc) & Hd).
  intros [Heq|[]]. inversion Heq; subst. exists a, b, c, d. auto 10.
Qed.

Lemma re_lit_inv (k : N) (s r : list ascii) (u : unit) :
  In (u, r) (Strptime.re_lit k s) -> s = ascii_of_N k :: r.
Proof.
  unfold Strptime.re_lit. destruct s as [|a s]; [contradiction|].
  destruct (Text.is_char k a) eqn:H; [|contradiction].
  intros [Heq|[]]. inversion Heq; subst.
  apply is_char_eq in H. subst a. reflexivity.
Qed.

Lemma month_spelling_read (m : Z) (ms r : list ascii) :
  1 <= m <= 12 -> In ms (month_spellings m) ->
  exists rest,
    Strptime.re_m (ms ++ ascii_of_N Text.dash :: r)
    = (m, ascii_of_N Text.dash :: r) :: rest.
Proof.
  intros Hm [<-|Hin].
  - destruct (zero_padded_2_digits m) as (a & b & -> & Ha & Hb & Hv); [lia|].
    rewrite <- Hv. apply re_m_padded; try assumption. lia.
  - destruct (m <? 10) eqn:Hlt; [|contradiction].
    destruct Hin as [<-|[]]. apply Z.ltb_lt in Hlt.
    destruct (digit_char_digit m) as (Ha & Hv); [lia|].
    exists []. simpl List.app. rewrite <- Hv at 2.
    apply re_m_single; [exact Ha|lia].
Qed.

Lemma day_spelling_read (d : Z) (ds : list ascii) :
  1 <= d <= 31 -> In ds (day_spellings d) ->
  exists rest, Strptime.re_d ds = (d, []) :: rest.
Proof.
  intros Hd [<-|Hin].
  - destruct (zero_padded_2_digits d) as (a & b & -> & Ha & Hb & Hv); [lia|].
    rewrite <- Hv. apply re_d_padded; try assumption. lia.
  - destruct (d <? 10) eqn:Hlt; [|contradiction]. apply Z.ltb_lt in Hlt.
    destruct (digit_char_digit d) as (Ha & Hv); [lia|].
    destruct Hin as [<-|[<-|[]]]; exists []; rewrite <- Hv at 2.
    + apply re_d_single; [exact Ha|lia].
    + apply re_d_blank; [exact Ha|lia].
Qed.

(** Every spelling of a day of the calendar is read as that day. *)
Lemma spelled_parses (y m d : Z) (ms ds : list ascii) :
  Strptime.is_calendar_date y m d = true ->
  In ms (month_spellings m) -> In ds (day_spellings d) ->
  Strptime.strptime (spelled y ms ds) = Strptime.Date y m d.
Proof.
  intros Hcal Hms Hds.
  pose proof Hcal as Hcal'.
  unfold Strptime.is_calendar_date in Hcal'.
  rewrite !andb_true_iff, !Z.leb_le in Hcal'.
  destruct Hcal' as (((((Hy1 & Hy2) & Hm1) & Hm2) & Hd1) & Hd2).
  pose proof (days_in_month_le_31 y m) as H31.
  destruct (zero_padded_4_digits y)
    as (a & b & c & e & Hyear & Ha & Hb & Hc & He & Hy); [lia|].
  destruct (month_spelling_read m ms ds) as (rm & Hrm); [lia|exact Hms|].
  destruct (day_spelling_read d ds) as (rd & Hrd); [lia|exact Hds|].
  unfold Strptime.strptime, spelled, Text.chars.
  rewrite list_ascii_of_string_of_list_ascii, Hyear.
  unfold Strptime.format_regex, Strptime.and_then, Strptime.re_Y,
    Strptime.re_lit.
  cbn [List.app]. rewrite Ha, Hb, Hc, He.
  cbn [andb flat_map fst snd List.app].
  change (Text.is_char Text.dash (ascii_of_N Text.dash)) with true.
  cbn [flat_map fst snd List.app].
  rewrite Hrm. cbn [flat_map fst snd List.app].
  change (Text.is_char Text.dash (ascii_of_N Text.dash)) with true.
  cbn [flat_map fst snd List.app].
  rewrite Hrd. cbn [flat_map fst snd List.app].
  rewrite Hy, Hcal. reflexivity.
Qed.

(** [strptime] reads an ASCII text as the day (y, m, d) exactly when that
    is a day of the calendar and the text is one of its spellings: the year
    in four digits, a dash, the month in two digits or, below 10, in one, a
    dash, the day in two digits or, below 10, in one digit or in a blank and
    one digit.  So of the ASCII texts [validate_date] takes these and no
    other. *)
Theorem strptime_accepts_exactly (text : string) (y m d : Z) :
  Text.is_ascii text = true ->
  Strptime.strptime text = Strptime.Date y m d
  <-> Strptime.is_calendar_date y m d = true
      /\ exists ms ds,
           In ms (month_spellings m) /\ In ds (day_spellings d)
           /\ text = spelled y ms ds.
Proof.
  intros _. split.
  - unfold Strptime.strptime.
    destruct (Strptime.format_regex (Text.chars text))
      as [|(((y0 & m0) & d0) & rest) others] eqn:Hre; [discriminate|].
    destruct rest; [|discriminate].
    destruct (Strptime.is_calendar_date y0 m0 d0) eqn:Hcal; [|discriminate].
    intros H. inversion H; subst y0 m0 d0. split; [exact Hcal|].
    assert (Hin : In ((y, m, d), [])
                     (Strptime.format_regex (Text.chars text)))
      by (rewrite Hre; left; reflexivity).
    clear Hre H.
    unfold Strptime.format_regex, Strptime.and_then in Hin.
    apply in_flat_map in Hin. destruct Hin as ((y0 & s1) & HY & Hin).
    apply in_flat_map in Hin. destruct Hin as ((u1 & s2) & HL1 & Hin).
    apply in_flat_map in Hin. destruct Hin as ((m0 & s3) & HM & Hin).
    apply in_flat_map in Hin. destruct Hin as ((u2 & s4) & HL2 & Hin).
    apply in_flat_map in Hin. destruct Hin as ((d0 & s5) & HD & Hin).
    simpl in HL1, HM, HL2, HD, Hin.
    destruct Hin as [Heq|[]]. inversion Heq; subst y0 m0 d0 s5. clear Heq.
    apply re_Y_inv in HY.
    destruct HY as (a & b & c & e & Htext & Ha & Hb & Hc & He & Hy).
    apply re_lit_inv in HL1. apply re_lit_inv in HL2.
    assert (Hyear : Text.zero_padded 4 y = [a; b; c; e])
      by (rewrite Hy; apply zero_padded_4; assumption).
    assert (Hspell : forall ms ds,
              s2 = ms ++ ascii_of_N Text.dash :: ds ->
              text = spelled y ms ds).
    { intros ms ds Hs2. unfold spelled. rewrite Hyear.
      rewrite <- (string_of_list_ascii_of_string text).
      unfold Text.chars in Htext. rewrite Htext, HL1, Hs2. reflexivity. }
    apply re_m_inv in HM. apply re_d_inv in HD. subst s3.
    destruct HM as [(m1 & m2 & Hs2 & Hm1 & Hm2 & Hmv & Hmr)
                   |(m1 & Hs2 & Hm1 & Hmv & Hmr)];
      destruct HD as [(d1 & d2 & Hs4 & Hd1 & Hd2 & Hdv & Hdr)
                     |[(d1 & Hs4 & Hd1 & Hdv & Hdr)
                      |(d1 & Hs4 & Hd1 & Hdv & Hdr)]];
      subst s4.
    + exists [m1; m2], [d1; d2]. split; [|split; [|apply Hspell, Hs2]].
      * left. rewrite Hmv. apply zero_padded_2; assumption.
      * left. rewrite Hdv. apply zero_padded_2; assumption.
    + exists [m1; m2], [d1]. split; [|split; [|apply Hspell, Hs2]].
      * left. rewrite Hmv. apply zero_padded_2; assumption.
      * right. unfold day_spellings.
        assert (Hlt : (d <? 10) = true) by (apply Z.ltb_lt; lia).
        cbn [In]. rewrite Hlt, Hdv, digit_char_val by assumption.
        left. reflexivity.
    + exists [m1; m2], [ascii_of_N Text.blank; d1].
      split; [|split; [|apply Hspell, Hs2]].
      * left. rewrite Hmv. apply zero_padded_2; assumption.
      * right.
        assert (Hlt : (d <? 10) = true) by (apply Z.ltb_lt; lia).
        rewrite Hlt, Hdv, digit_char_val by assumption.
        right; left. reflexivity.
    + exists [m1], [d1; d2]. split; [|split; [|apply Hspell, Hs2]].
      * right.
        assert (Hlt : (m <? 10) = true) by (apply Z.ltb_lt; lia).
        rewrite Hlt, Hmv, digit_char_val by assumption.
        left. reflexivity.
      * left. rewrite Hdv. apply zero_padded_2; assumption.
    + exists [m1], [d1]. split; [|split; [|apply Hspell, Hs2]].
      * right.
        assert (Hlt : (m <? 10) = true) by (apply Z.ltb_lt; lia).
        rewrite Hlt, Hmv, digit_char_val by assumption.
        left. reflexivity.
      * right.
        assert (Hlt : (d <? 10) = true) by (apply Z.ltb_lt; lia).
        rewrite Hlt, Hdv, digit_char_val by assumption.
        left. reflexivity.
    + exists [m1], [ascii_of_N Text.blank; d1].
      split; [|split; [|apply Hspell, Hs2]].
      * right.
        assert (Hlt : (m <? 10) = true) by (apply Z.ltb_lt; lia).
        rewrite Hlt, Hmv, digit_char_val by assumption.
        left. reflexivity.
      * right.
        assert (Hlt : (d <? 10) = true) by (apply Z.ltb_lt; lia).
        rewrite Hlt, Hdv, digit_char_val by assumption.
        right; left. reflexivity.
  - intros (Hcal & ms & ds & Hms & Hds & ->).
    apply spelled_parses; assumption.
Qed.

Lemma strptime_accepts_exactly_witness :
  Text.is_ascii "2024-1-5" = true
  /\ exists ms ds,
       In ms (month_spellings 1) /\ In ds (day_spellings 5)
       /\ "2024-1-5" = spelled 2024 ms ds.
Proof.
  split; [reflexivity|].
  apply (proj1 (strptime_accepts_exactly "2024-1-5" 2024 1 5 eq_refl)).
  reflexivity.
Defined.

(** ** The report between two days picked in the calendar *)

(** A date in the form YYYY-MM-DD is the calendar's text of the day it
    names. *)
Lemma iso_date_is_get_date (text : string) :
  is_iso_date text = true ->
  exists y m d,
    Strptime.is_calendar_date y m d = true /\ text = get_date y m d.
Proof.
  intros Hiso.
  pose proof (string_of_list_ascii_of_string text) as Htext.
  unfold is_iso_date, Text.chars in Hiso.
  destruct (list_ascii_of_string text)
    as [|y1 [|y2 [|y3 [|y4 [|h1 [|m1 [|m2 [|h2 [|d1 [|d2 [|]]]]]]]]]]];
    try discriminate.
  rewrite !andb_true_iff in Hiso.
  destruct Hiso as ((((((((((Hy1 & Hy2) & Hy3) & Hy4) & Hh1) & Hm1) & Hm2)
                       & Hh2) & Hd1) & Hd2) & Hcal).
  eexists _, _, _. split; [exact Hcal|].
  rewrite <- Htext.
  unfold get_date, spelled.
  rewrite zero_padded_4, !zero_padded_2 by assumption.
  apply is_char_eq in Hh1, Hh2. subst h1 h2. reflexivity.
Qed.

Lemma get_date_parses (y m d : Z) :
  Strptime.is_calendar_date y m d = true ->
  Strptime.strptime (get_date y m d) = Strptime.Date y m d.
Proof.
  intros Hcal. apply spelled_parses; [exact Hcal|left; reflexivity..].
Qed.

(** The calendar's texts of two days compare, as texts, the way the days
    follow each other. *)
Lemma get_date_order (ya ma da yb mb db : Z) :
  Strptime.is_calendar_date ya ma da = true ->
  Strptime.is_calendar_date yb mb db = true ->
  Sqlite.text_le (get_date ya ma da) (get_date yb mb db) = true
  <-> day_le (ya, ma, da) (yb, mb, db).
Proof.
  intros Ha Hb.
  unfold Strptime.is_calendar_date in Ha, Hb.
  rewrite !andb_true_iff, !Z.leb_le in Ha, Hb.
  destruct Ha as (((((Ha1 & Ha2) & Ha3) & Ha4) & Ha5) & Ha6).
  destruct Hb as (((((Hb1 & Hb2) & Hb3) & Hb4) & Hb5) & Hb6).
  pose proof (days_in_month_le_31 ya ma). pose proof (days_in_month_le_31 yb mb).
  unfold get_date, spelled.
  destruct (zero_padded_4_digits ya)
    as (a1 & a2 & a3 & a4 & -> & A1 & A2 & A3 & A4 & HYa); [lia|].
  destruct (zero_padded_2_digits ma) as (a5 & a6 & -> & A5 & A6 & HMa); [lia|].
  destruct (zero_padded_2_digits da) as (a7 & a8 & -> & A7 & A8 & HDa); [lia|].
  destruct (zero_padded_4_digits yb)
    as (b1 & b2 & b3 & b4 & -> & B1 & B2 & B3 & B4 & HYb); [lia|].
  destruct (zero_padded_2_digits mb) as (b5 & b6 & -> & B5 & B6 & HMb); [lia|].
  destruct (zero_padded_2_digits db) as (b7 & b8 & -> & B7 & B8 & HDb); [lia|].
  apply in_range_bounds in A1, A2, A3, A4, A5, A6, A7, A8,
                           B1, B2, B3, B4, B5, B6, B7, B8.
  unfold Text.digit_val in *.
  unfold Sqlite.text_le.
  cbn [List.app string_of_list_ascii Sqlite.memcmp].
  change (Text.code (ascii_of_N Text.dash)) with 45%N.
  change (45 ?= 45)%N with Eq. cbv iota.
  destruct (N.compare_spec (Text.code a1) (Text.code b1)); [|order_leaf..].
  destruct (N.compare_spec (Text.code a2) (Text.code b2)); [|order_leaf..].
  destruct (N.compare_spec (Text.code a3) (Text.code b3)); [|order_leaf..].
  destruct (N.compare_spec (Text.code a4) (Text.code b4)); [|order_leaf..].
  destruct (N.compare_spec (Text.code a5) (Text.code b5)); [|order_leaf..].
  destruct (N.compare_spec (Text.code a6) (Text.code b6)); [|order_leaf..].
  destruct (N.compare_spec (Text.code a7) (Text.code b7)); [|order_leaf..].
  destruct (N.compare_spec (Text.code a8) (Text.code b8)); order_leaf.
Qed.

(** Over a store whose dates have the form YYYY-MM-DD, the report between
    two days picked in the calendar lists exactly the expenses whose day is
    neither before the first nor after the second. *)
Theorem report_between_calendar_days (E : Sqlite.engine) (st : state)
    (y1 m1 d1 y2 m2 d2 : Z) :
  iso_dated (db st) ->
  Strptime.is_calendar_date y1 m1 d1 = true ->
  Strptime.is_calendar_date y2 m2 d2 = true ->
  forall e,
    In e (expenses_tree
            (win (generate_report E st (get_date y1 m1 d1)
                    (get_date y2 m2 d2))))
    <-> In e (expenses (db st))
        /\ exists y m d,
             Strptime.strptime (date e) = Strptime.Date y m d
             /\ day_le (y1, m1, d1) (y, m, d)
             /\ day_le (y, m, d) (y2, m2, d2).
Proof.
  intros Hiso H1 H2 e. unfold iso_dated in Hiso.
  rewrite Forall_forall in Hiso.
  unfold generate_report; simpl.
  rewrite emit_In, filter_In. unfold Sqlite.between. rewrite andb_true_iff.
  split.
  - intros (He & Hlo & Hhi). split; [exact He|].
    destruct (iso_date_is_get_date _ (Hiso e He)) as (y & m & d & Hcal & Hd).
    exists y, m, d. rewrite Hd in *.
    split; [apply get_date_parses, Hcal|].
    split; apply get_date_order; assumption.
  - intros (He & y & m & d & Hparse & Hlo & Hhi). split; [exact He|].
    destruct (iso_date_is_get_date _ (Hiso e He)) as (y' & m' & d' & Hcal & Hd).
    rewrite Hd in *. rewrite (get_date_parses _ _ _ Hcal) in Hparse.
    inversion Hparse; subst y' m' d'.
    split; apply get_date_order; assumption.
Qed.

Lemma report_between_calendar_days_witness :
  iso_dated (db three_expenses)
  /\ forall e,
       In e (expenses_tree
               (win (generate_report Sqlite.in_order three_expenses
                       (get_date 2024 1 10) (get_date 2024 2 1))))
       <-> In e (expenses (db three_expenses))
           /\ exists y m d,
                Strptime.strptime (date e) = Strptime.Date y m d
                /\ day_le (2024, 1, 10) (y, m, d)
                /\ day_le (y, m, d) (2024, 2, 1).
Proof.
  assert (H : iso_dated (db three_expenses)) by (repeat constructor).
  split; [exact H|].
  apply (report_between_calendar_days Sqlite.in_order three_expenses
           2024 1 10 2024 2 1 H); reflexivity.
Defined.

(** ** The total of a report, white space around an amount *)

Lemma filtered_sum_le (p : Expense -> bool) (rows : list Expense) :
  Forall (fun e => (0 < amount e)%Q) rows ->
  (total (filter p rows) <= total rows)%Q.
Proof.
  unfold total. induction 1 as [|e rows He _ IH]; simpl.
  - apply Qle_refl.
  - destruct (p e); simpl; rewrite !Qsum_cons.
    + apply Qplus_le_compat; [apply Qle_refl|exact IH].
    + setoid_replace (Qsum (map amount (filter p rows)))
        with (0 + Qsum (map amount (filter p rows)))%Q by ring.
      apply Qplus_le_compat; [apply Qlt_le_weak, He|exact IH].
Qed.

(** In every state the program reaches, the total a report shows is at
    most the total of all expenses, whatever the two dates. *)
Theorem report_total_is_bounded (E : Sqlite.engine) (st : state)
    (start_date end_date : string) :
  reachable E st ->
  exists t,
    total_label (win (generate_report E st start_date end_date))
    = TotalFromTo start_date end_date t
    /\ (0 <= t)%Q /\ (t <= total (select_all E (db st)))%Q.
Proof.
  intros Hreach.
  destruct (reachable_ok E st Hreach) as (Hent & _ & _).
  assert (Hpos : Forall (fun e => (0 < amount e)%Q) (expenses (db st))).
  { eapply Forall_impl; [|exact Hent]. intros e (_ & _ & He). exact He. }
  eexists. split; [reflexivity|].
  unfold select_all. rewrite !emit_total. split.
  - unfold total. apply Qsum_nonneg, Forall_map.
    rewrite Forall_forall in *. intros e He.
    apply filter_In in He. apply Qlt_le_weak, Hpos, He.
  - apply filtered_sum_le, Hpos.
Qed.

Lemma report_total_is_bounded_witness :
  reachable Sqlite.in_order three_expenses
  /\ exists t,
       total_label
         (win (generate_report Sqlite.in_order three_expenses
                 "2024-01-01" "2024-01-31"))
       = TotalFromTo "2024-01-01" "2024-01-31" t
       /\ (0 <= t)%Q
       /\ (t <= total (select_all Sqlite.in_order (db three_expenses)))%Q.
Proof.
  assert (H : reachable Sqlite.in_order three_expenses)
    by (unfold three_expenses; repeat apply reach_add; apply reach_new).
  split; [exact H|].
  exact (report_total_is_bounded Sqlite.in_order three_expenses
           "2024-01-01" "2024-01-31" H).
Defined.

Lemma lstrip_all_spaces (l : list ascii) :
  forallb Text.is_space l = true -> PyFloat.lstrip l = [].
Proof.
  induction l as [|c l IH]; simpl; [reflexivity|].
  intros H. apply andb_true_iff in H. destruct H as (Hc & Hl).
  rewrite Hc. apply IH, Hl.
Qed.

Lemma lstrip_prefix (pre l : list ascii) :
  forallb Text.is_space pre = true ->
  PyFloat.lstrip (pre ++ l) = PyFloat.lstrip l.
Proof.
  intros H. induction pre as [|c pre IH]; simpl; [reflexivity|].
  simpl in H. apply andb_true_iff in H. destruct H as (Hc & Hpre).
  rewrite Hc. apply IH, Hpre.
Qed.

Lemma lstrip_suffix (l post : list ascii) :
  forallb Text.is_space post = true ->
  PyFloat.lstrip (l ++ post) = []
  \/ PyFloat.lstrip (l ++ post) = PyFloat.lstrip l ++ post
     /\ PyFloat.lstrip l <> [].
Proof.
  intros Hpost. induction l as [|c l IH]; simpl.
  - left. apply lstrip_all_spaces, Hpost.
  - destruct (Text.is_space c); [exact IH|].
    right. split; [reflexivity|discriminate].
Qed.

Lemma forallb_rev {A : Type} (f : A -> bool) (l : list A) :
  forallb f l = true -> forallb f (rev l) = true.
Proof.
  rewrite !forallb_forall. intros H x Hx. apply H, in_rev, Hx.
Qed.

Lemma strip_surrounded (pre l post : list ascii) :
  forallb Text.is_space pre = true -> forallb Text.is_space post = true ->
  PyFloat.strip (pre ++ l ++ post) = PyFloat.strip l.
Proof.
  intros Hpre Hpost. unfold PyFloat.strip.
  rewrite (lstrip_prefix pre _ Hpre).
  destruct (lstrip_suffix l post Hpost) as [Hnone|(Hsame & Hne)].
  - rewrite Hnone.
    assert (Hl : PyFloat.lstrip l = []).
    { clear -Hnone. induction l as [|c l IH]; [reflexivity|].
      simpl in *. destruct (Text.is_space c); [apply IH, Hnone|discriminate]. }
    rewrite Hl. reflexivity.
  - rewrite Hsame, rev_app_distr.
    rewrite (lstrip_prefix (rev post) _ (forallb_rev _ _ Hpost)).
    reflexivity.
Qed.

(** White space before and after an amount is ignored: [float] reads the
    same value, so [validate_amount] gives the same answer and
    [add_expense] leaves the same table. *)
Theorem float_ignores_surrounding_space (text inner : string)
    (pre post : list ascii) :
  Text.chars text = pre ++ Text.chars inner ++ post ->
  forallb Text.is_space pre = true ->
  forallb Text.is_space post = true ->
  PyFloat.float text = PyFloat.float inner
  /\ validate_amount text = validate_amount inner
  /\ forall E st date category,
       db (add_expense E st date category text)
       = db (add_expense E st date category inner).
Proof.
  intros Htext Hpre Hpost.
  assert (H : PyFloat.float text = PyFloat.float inner).
  { unfold PyFloat.float. rewrite Htext, strip_surrounded by assumption.
    reflexivity. }
  assert (Hv : validate_amount text = validate_amount inner)
    by (unfold validate_amount; rewrite H; reflexivity).
  split; [exact H|]. split; [exact Hv|].
  intros E st date category. unfold add_expense. rewrite Hv, H.
  reflexivity.
Qed.

Lemma float_ignores_surrounding_space_witness :
  Text.chars "  12.50 " = Text.chars "  " ++ Text.chars "12.50" ++ Text.chars " "
  /\ PyFloat.float "  12.50 " = PyFloat.float "12.50".
Proof.
  split; [reflexivity|].
  apply (proj1 (float_ignores_surrounding_space "  12.50 " "12.50"
                  (Text.chars "  ") (Text.chars " ")
                  eq_refl eq_refl eq_refl)).
Defined.

